(** * projections.py: 3D points projected onto a plane and read in the
      plane's own 2D basis.

    A shallow embedding of [projections.py]: the vector primitives,
    [decompose], [Line], [Plane], [View], [KeyboardEventHandler],
    [adjust_view_point] and the key dispatch of [main].

    Number model.  A component of a vector is a Python number: an [int]
    (arbitrary precision, [Z]) or a [float] (IEEE 754 binary64, the
    primitive [float] of the kernel, whose operations round to nearest,
    ties to even).  The arithmetic is Python's:
    - [+ - *] of two ints is exact; with a float operand the int is first
      converted to the nearest float, and the conversion raises
      [OverflowError] when the int is too large;
    - [/] is true division: it raises [ZeroDivisionError] when the divisor
      compares equal to zero, and of two ints it is the correctly rounded
      quotient, or [OverflowError];
    - [x ** 2] of a float raises [OverflowError] when the square of a
      finite float overflows (the power function of the C library is taken
      to round a square correctly);
    - [math.sqrt] raises [ValueError] below zero; [math.fsum] follows
      CPython's algorithm of exact partial sums, with its
      [OverflowError] on an intermediate overflow and its [ValueError] on
      [inf + -inf]; [round] raises [ValueError] on nan and [OverflowError]
      on an infinity.
    Exact values of floats are rationals ([Q]); they appear in statements
    only, never in the embedding of the code. *)

From Stdlib Require Import Floats ZArith QArith Qabs Qpower Lia List Bool.
From Stdlib Require Import FMapAVL FMapFacts OrderedTypeEx.
Import ListNotations.

(** ** Exceptions *)

(** The exception classes the engine can raise. *)
Inductive exn : Type :=
| ZeroDivisionError
| ValueError
| OverflowError
| IndexError.

(** A Python computation either returns a value or raises. *)
Inductive result (A : Type) : Type :=
| Ok (a : A)
| Raise (e : exn).

Arguments Ok {A} a.
Arguments Raise {A} e.

Definition bind {A B : Type} (c : result A) (k : A -> result B) : result B :=
  match c with
  | Ok a => k a
  | Raise e => Raise e
  end.

Notation "x <- c ;; k" := (bind c (fun x => k))
  (at level 61, c at next level, right associativity).

(** [try: body  except ZeroDivisionError: handler].  Any other exception
    passes through. *)
Definition try_except_ZeroDivisionError {A : Type}
    (body : result A) (handler : result A) : result A :=
  match body with
  | Ok a => Ok a
  | Raise ZeroDivisionError => handler
  | Raise e => Raise e
  end.

(** [map(f, t)] consumed from left to right: the first exception ends it. *)
Fixpoint map_result {A B : Type} (f : A -> result B) (l : list A)
  : result (list B) :=
  match l with
  | [] => Ok []
  | a :: rest =>
      b <- f a ;;
      bs <- map_result f rest ;;
      Ok (b :: bs)
  end.

(** ** Numbers *)

Inductive num : Type :=
| PyInt (z : Z)
| PyFloat (f : float).

(** [x != y] of two floats: true when either is a nan. *)
Definition float_ne (x y : float) : bool := negb (PrimFloat.eqb x y).

(** [float(z)]: the nearest float, ties to even. *)
Definition float_of_int (z : Z) : result float :=
  match binary_normalize prec emax z 0 false with
  | S754_infinity _ => Raise OverflowError
  | sf => Ok (SF2Prim sf)
  end.

(** The conversion of an operand of a float operation. *)
Definition as_float (x : num) : result float :=
  match x with
  | PyInt z => float_of_int z
  | PyFloat f => Ok f
  end.

Definition num_add (x y : num) : result num :=
  match x, y with
  | PyInt a, PyInt b => Ok (PyInt (a + b))
  | _, _ => a <- as_float x ;; b <- as_float y ;; Ok (PyFloat (a + b))
  end.

Definition num_sub (x y : num) : result num :=
  match x, y with
  | PyInt a, PyInt b => Ok (PyInt (a - b))
  | _, _ => a <- as_float x ;; b <- as_float y ;; Ok (PyFloat (a - b))
  end.

Definition num_mul (x y : num) : result num :=
  match x, y with
  | PyInt a, PyInt b => Ok (PyInt (a * b))
  | _, _ => a <- as_float x ;; b <- as_float y ;; Ok (PyFloat (a * b))
  end.

(** [-x] *)
Definition num_neg (x : num) : result num :=
  match x with
  | PyInt a => Ok (PyInt (- a))
  | PyFloat f => Ok (PyFloat (- f))
  end.

(** [a / b] of two ints, [b] not zero: the correctly rounded quotient. *)
Definition int_truediv (a b : Z) : result float :=
  match a with
  | Z0 => Ok (if (b <? 0)%Z then neg_zero else zero)
  | _ =>
      let '(q, e, l) :=
        SFdiv_core_binary prec emax (Z.abs a) 0 (Z.abs b) 0 in
      match binary_round_aux prec emax
              (xorb (a <? 0)%Z (b <? 0)%Z) q e l with
      | S754_infinity _ => Raise OverflowError
      | sf => Ok (SF2Prim sf)
      end
  end.

(** [x / y] *)
Definition truediv (x y : num) : result num :=
  match x, y with
  | PyInt a, PyInt b =>
      if (b =? 0)%Z then Raise ZeroDivisionError
      else q <- int_truediv a b ;; Ok (PyFloat q)
  | _, _ =>
      a <- as_float x ;;
      b <- as_float y ;;
      if PrimFloat.eqb b zero then Raise ZeroDivisionError
      else Ok (PyFloat (a / b))
  end.

(** [x ** 2] *)
Definition pow2 (x : num) : result num :=
  match x with
  | PyInt a => Ok (PyInt (a * a))
  | PyFloat f =>
      let s := (f * f)%float in
      if is_finite f && is_infinity s then Raise OverflowError
      else Ok (PyFloat s)
  end.

(** [math.sqrt(x)] *)
Definition math_sqrt (x : num) : result num :=
  f <- as_float x ;;
  if PrimFloat.ltb f zero then Raise ValueError
  else Ok (PyFloat (PrimFloat.sqrt f)).

(** *** math.fsum *)

(** The inner loop [for y in partials]: [x] is added to the partials in
    turn; the non-zero rounding errors [lo] are the new partials and the
    last [hi] is handed back. *)
Fixpoint fsum_add (x : float) (partials : list float) : float * list float :=
  match partials with
  | [] => (x, [])
  | y :: rest =>
      let '(x, y) := if PrimFloat.ltb (abs x) (abs y) then (y, x) else (x, y) in
      let hi := (x + y)%float in
      let yr := (hi - x)%float in
      let lo := (y - yr)%float in
      let '(x', rest') := fsum_add hi rest in
      (x', if float_ne lo zero then lo :: rest' else rest')
  end.

Record fsum_state : Type :=
  mk_fsum { partials : list float; special_sum : float; inf_sum : float }.

(** One item of the iterable. *)
Definition fsum_step (st : fsum_state) (xsave : float) : result fsum_state :=
  let '(x, ps) := fsum_add xsave (partials st) in
  if float_ne x zero then
    if negb (is_finite x) then
      if is_finite xsave then Raise OverflowError
      else
        Ok (mk_fsum []
              (special_sum st + xsave)%float
              (if is_infinity xsave then (inf_sum st + xsave)%float
               else inf_sum st))
    else Ok (mk_fsum (ps ++ [x]) (special_sum st) (inf_sum st))
  else Ok (mk_fsum ps (special_sum st) (inf_sum st)).

(** The partials summed from the top, until a sum is inexact: the sum, the
    last rounding error and the partials that are left. *)
Fixpoint fsum_top (hi : float) (below : list float)
  : float * float * list float :=
  match below with
  | [] => (hi, zero, [])
  | y :: rest =>
      let x := hi in
      let hi := (x + y)%float in
      let yr := (hi - x)%float in
      let lo := (y - yr)%float in
      if float_ne lo zero then (hi, lo, rest) else fsum_top hi rest
  end.

Definition fsum_finish (st : fsum_state) : result float :=
  if float_ne (special_sum st) zero then
    if is_nan (inf_sum st) then Raise ValueError else Ok (special_sum st)
  else
    match rev (partials st) with
    | [] => Ok zero
    | top :: below =>
        let '(hi, lo, rest) := fsum_top top below in
        match rest with
        | [] => Ok hi
        | p :: _ =>
            if (PrimFloat.ltb lo zero && PrimFloat.ltb p zero)
               || (PrimFloat.ltb zero lo && PrimFloat.ltb zero p)
            then
              let y := (lo * 2)%float in
              let x := (hi + y)%float in
              let yr := (x - hi)%float in
              if PrimFloat.eqb y yr then Ok x else Ok hi
            else Ok hi
        end
    end.

Fixpoint fsum_loop (st : fsum_state) (l : list num) : result float :=
  match l with
  | [] => fsum_finish st
  | item :: rest =>
      x <- as_float item ;;
      st' <- fsum_step st x ;;
      fsum_loop st' rest
  end.

(** [math.fsum(l)] *)
Definition fsum (l : list num) : result num :=
  s <- fsum_loop (mk_fsum [] zero zero) l ;;
  Ok (PyFloat s).

(** *** round *)

(** The integer nearest to [m / 2^p], a tie going to the even one. *)
Definition round_half_even_shift (m : positive) (p : positive) : Z :=
  let d := Z.pow_pos 2 p in
  let q := (Zpos m / d)%Z in
  let r := (Zpos m mod d)%Z in
  match (2 * r ?= d)%Z with
  | Lt => q
  | Gt => (q + 1)%Z
  | Eq => if Z.even q then q else (q + 1)%Z
  end.

(** The built-in [round(x)] with one argument. *)
Definition py_round (x : num) : result Z :=
  match x with
  | PyInt z => Ok z
  | PyFloat f =>
      match Prim2SF f with
      | S754_nan => Raise ValueError
      | S754_infinity _ => Raise OverflowError
      | S754_zero _ => Ok 0%Z
      | S754_finite s m e =>
          let a :=
            match e with
            | Z0 => Zpos m
            | Zpos p => (Zpos m * Z.pow_pos 2 p)%Z
            | Zneg p => round_half_even_shift m p
            end in
          Ok (if s then (- a)%Z else a)
      end
  end.

(** *** Expressions *)

(** An operand still to be evaluated, and the operators on operands: the
    left operand is evaluated first, then the right one, then the
    operation. *)
Definition rnum : Type := result num.

Definition ret (x : num) : rnum := Ok x.
Coercion ret : num >-> rnum.

Definition binop (op : num -> num -> result num) (a b : rnum) : rnum :=
  x <- a ;; y <- b ;; op x y.

Definition unop (op : num -> result num) (a : rnum) : rnum :=
  x <- a ;; op x.

Declare Scope py_scope.
Delimit Scope py_scope with py.
Notation "a + b" := (binop num_add a b) : py_scope.
Notation "a - b" := (binop num_sub a b) : py_scope.
Notation "a * b" := (binop num_mul a b) : py_scope.
Notation "a / b" := (binop truediv a b) : py_scope.
Notation "- a" := (unop num_neg a) : py_scope.

(** ** Vectors *)

Definition Vector2 (T : Type) : Type := (T * T)%type.
Definition Vector2f : Type := Vector2 num.
Definition Vector3 (T : Type) : Type := (T * T * T)%type.
Definition Vector3f : Type := Vector3 num.

(** [v[0]], [v[1]], [v[2]]. *)
Definition get0 {T : Type} (v : Vector3 T) : T := fst (fst v).
Definition get1 {T : Type} (v : Vector3 T) : T := snd (fst v).
Definition get2 {T : Type} (v : Vector3 T) : T := snd v.

(** A tuple of any length, and its use as a [Vector3f]: the subscripts
    [t[0]], [t[1]], [t[2]] raise [IndexError] on a shorter tuple. *)
Definition pytuple : Type := list num.

Definition as_Vector3f (t : pytuple) : result Vector3f :=
  match t with
  | x :: y :: z :: _ => Ok (x, y, z)
  | _ => Raise IndexError
  end.

Definition mult_vec (v : Vector3f) (m : num) : result Vector3f :=
  x <- (get0 v * m)%py ;;
  y <- (get1 v * m)%py ;;
  z <- (get2 v * m)%py ;;
  Ok (x, y, z).

(** [zip( *l)]: the columns of a list of triples, none for the empty list. *)
Definition zip_star (l : list Vector3f) : list (list num) :=
  match l with
  | [] => []
  | _ :: _ => [map get0 l; map get1 l; map get2 l]
  end.

(** [tuple(map(fsum, zip( *l)))]: the three column sums, the empty tuple
    for the empty list. *)
Definition sum_vec (l : list Vector3f) : result pytuple :=
  map_result fsum (zip_star l).

Definition decompose (v : Vector3f) (basis : Vector3f * Vector3f)
  : result Vector2f :=
  let a := fst basis in
  let b := snd basis in
  try_except_ZeroDivisionError
    (n <- ((get0 v * get1 a - get1 v * get0 a)
           / (get0 b * get1 a - get1 b * get0 a))%py ;;
     m <- ((get0 v - n * get0 b) / get0 a)%py ;;
     Ok (n, m))
    (Ok (PyInt 0, PyInt 0)).

Definition normalize_vec (v : Vector3f) : result Vector3f :=
  M <- unop math_sqrt (pow2 (get0 v) + pow2 (get1 v) + pow2 (get2 v))%py ;;
  x <- (get0 v / M)%py ;;
  y <- (get1 v / M)%py ;;
  z <- (get2 v / M)%py ;;
  Ok (x, y, z).

(** ** class Line *)

Module Line.

Record t : Type := mk { point : Vector3f; dir_vec : Vector3f }.

(** [Line(point, dir_vec)] *)
Definition init (point dir_vec : Vector3f) : result t :=
  d <- normalize_vec dir_vec ;;
  Ok (mk point d).

Definition scuttle (self : t) (u : num) : result Vector3f :=
  x <- (get0 (point self) + u * get0 (dir_vec self))%py ;;
  y <- (get1 (point self) + u * get1 (dir_vec self))%py ;;
  z <- (get2 (point self) + u * get2 (dir_vec self))%py ;;
  Ok (x, y, z).

End Line.

(** ** class Plane *)

Module Plane.

Record t : Type := mk { normal : Vector3f; intercept : num }.

Definition project_vector (self : t) (point view : Vector3f)
  : result Vector3f :=
  let A := get0 (normal self) in
  let B := get1 (normal self) in
  let C := get2 (normal self) in
  let D := intercept self in
  let x := get0 point in
  let y := get1 point in
  let z := get2 point in
  mx <- (x - get0 view)%py ;;
  my <- (y - get1 view)%py ;;
  mz <- (z - get2 view)%py ;;
  t <- ((- (A * x + B * y + C * z + D)) / (A * mx + B * my + C * mz))%py ;;
  x' <- (x + t * mx)%py ;;
  y' <- (y + t * my)%py ;;
  z' <- (z + t * mz)%py ;;
  Ok (x', y', z').

Definition project_through (self : t) (point : Vector3f)
  : result Vector3f :=
  s <- sum_vec [point; normal self] ;;
  view <- as_Vector3f s ;;
  project_vector self point view.

Definition project_line (self : t) (line : Line.t) : result Line.t :=
  p1 <- project_through self (Line.point line) ;;
  q <- Line.scuttle line (PyInt 1) ;;
  p2 <- project_through self q ;;
  mx <- (get0 p2 - get0 p1)%py ;;
  my <- (get1 p2 - get1 p1)%py ;;
  mz <- (get2 p2 - get2 p1)%py ;;
  Line.init p1 (mx, my, mz).

Definition get_vectors (self : t) (basis : Vector3f)
  : result (Vector3f * Vector3f) :=
  let A := get0 (normal self) in
  let B := get1 (normal self) in
  let C := get2 (normal self) in
  p <- project_through self basis ;;
  q <- normalize_vec p ;;
  x <- (B * get2 q - C * get1 q)%py ;;
  y <- (C * get0 q - A * get2 q)%py ;;
  z <- (A * get1 q - B * get0 q)%py ;;
  r <- normalize_vec (x, y, z) ;;
  Ok (q, r).

End Plane.

(** ** class KeyboardEventHandler *)

(** The dict [key_event_map]: a finite map from key codes (integers) to
    the pair [(handler, kwargs_dict)]. *)
Module KeyMap := FMapAVL.Make(Z_as_OT).
Module KeyMapFacts := FMapFacts.Facts(KeyMap).

(** What a subscript [d[key]] gives: the value, or [KeyError(key)]. *)
Inductive subscript (A : Type) : Type :=
| Found (a : A)
| KeyError (key : Z).

Arguments Found {A} a.
Arguments KeyError {A} key.

Module KeyboardEventHandler.

Section Handlers.

(** Handlers are arbitrary callables and [kwargs_dict] an arbitrary dict. *)
Variables Handler Kwargs : Type.

Record t : Type := mk { key_event_map : KeyMap.t (Handler * Kwargs) }.

(** [KeyboardEventHandler()] *)
Definition init : t := mk (KeyMap.empty (Handler * Kwargs)).

Definition has_handler (self : t) (key : Z) : bool :=
  KeyMap.mem key (key_event_map self).

(** The closure [lambda *args, **kwargs: handler( *args, key, **kwargs,
    **kwargs_dict)] that [get_handler] returns, as the three values it
    captures. *)
Record closure : Type :=
  mk_closure { captured_handler : Handler;
               captured_key : Z;
               captured_kwargs : Kwargs }.

Definition get_handler (self : t) (key : Z) : subscript closure :=
  match KeyMap.find key (key_event_map self) with
  | Some (handler, kwargs_dict) => Found (mk_closure handler key kwargs_dict)
  | None => KeyError key
  end.

Definition add_handler (self : t) (key : Z) (handler : Handler)
    (kwargs_dict : Kwargs) : t :=
  mk (KeyMap.add key (handler, kwargs_dict) (key_event_map self)).

Definition add_group_handler (self : t) (group : list Z) (handler : Handler)
    (kwargs_dict : Kwargs) : t :=
  fold_left (fun s key => add_handler s key handler kwargs_dict) group self.

End Handlers.

Arguments key_event_map {Handler Kwargs} _.
Arguments init {Handler Kwargs}.
Arguments has_handler {Handler Kwargs} _ _.
Arguments get_handler {Handler Kwargs} _ _.
Arguments add_handler {Handler Kwargs} _ _ _ _.
Arguments add_group_handler {Handler Kwargs} _ _ _ _.
Arguments captured_handler {Handler Kwargs} _.
Arguments captured_key {Handler Kwargs} _.
Arguments captured_kwargs {Handler Kwargs} _.

End KeyboardEventHandler.

(** ** class View *)

Module View.

Record t : Type :=
  mk { point : Vector3f; plane : Plane.t; basis : Vector3f * Vector3f }.

(** The default of the [basis] argument of [View(...)]. *)
Definition default_basis : Vector3f := (PyInt 1, PyInt 1, PyInt 1).

(** [View(point, plane, basis)] *)
Definition init (point : Vector3f) (plane : Plane.t) (basis : Vector3f)
  : result t :=
  b <- Plane.get_vectors plane basis ;;
  Ok (mk point plane b).

(** [tuple(map(round, decompose(...)))] *)
Definition project_point (self : t) (p : Vector3f) : result (Vector2 Z) :=
  X <- Plane.project_vector (plane self) p (point self) ;;
  nm <- decompose X (basis self) ;;
  i <- py_round (fst nm) ;;
  j <- py_round (snd nm) ;;
  Ok (i, j).

(** [list(map(self.project_point, points))] *)
Fixpoint project_points (self : t) (points : list Vector3f)
  : result (list (Vector2 Z)) :=
  match points with
  | [] => Ok []
  | p :: rest =>
      c <- project_point self p ;;
      cs <- project_points self rest ;;
      Ok (c :: cs)
  end.

(** [self.point = sum_vec([self.point, v])]: the object after the call.
    When [sum_vec] raises, nothing is assigned and the object stays as it
    was.  The sum of a list of two vectors has three items
    ([sum_vec_pair_items]), so the subscripts never fail here. *)
Definition move_point (self : t) (v : Vector3f) : result t :=
  s <- sum_vec [point self; v] ;;
  p <- as_Vector3f s ;;
  Ok (mk p (plane self) (basis self)).

End View.

(** ** adjust_view_point *)

(** The six key codes of [pygame] the program names.  The library is not
    part of the program; its constants are a parameter. *)
Record pygame_keys : Type :=
  mk_keys { K_LEFT : Z; K_RIGHT : Z; K_UP : Z; K_DOWN : Z; K_q : Z; K_e : Z }.

(** [adjust_view_point(key, view)]: the [view] object after the call, or
    the exception of [move_point], which leaves the object as it was. *)
Definition adjust_view_point (pygame : pygame_keys) (key : Z) (view : View.t)
  : result View.t :=
  if (key =? K_LEFT pygame)%Z then
    View.move_point view (PyInt (-10), PyInt 0, PyInt 0)
  else if (key =? K_RIGHT pygame)%Z then
    View.move_point view (PyInt 10, PyInt 0, PyInt 0)
  else if (key =? K_UP pygame)%Z then
    View.move_point view (PyInt 0, PyInt 10, PyInt 0)
  else if (key =? K_DOWN pygame)%Z then
    View.move_point view (PyInt 0, PyInt (-10), PyInt 0)
  else if (key =? K_q pygame)%Z then
    View.move_point view (PyInt 0, PyInt 0, PyInt 10)
  else if (key =? K_e pygame)%Z then
    View.move_point view (PyInt 0, PyInt 0, PyInt (-10))
  else Ok view.


(** ** main: the key dispatch *)

(** [view_control_keys] *)
Definition view_control_keys (pygame : pygame_keys) : list Z :=
  [K_LEFT pygame; K_RIGHT pygame; K_UP pygame; K_DOWN pygame;
   K_q pygame; K_e pygame].

(** The keyword dict [{"view": view}] of [main]: its one entry refers to
    the one [View] object of the program, whose state is threaded through
    the calls below. *)
Inductive view_kwargs : Type := view_ref.

(** A handler as [main] calls it: [handler(key, view=view)]. *)
Definition view_handler : Type := Z -> View.t -> result View.t.

(** [keyboard_event_handler] as [main] sets it up. *)
Definition main_keyboard_event_handler (pygame : pygame_keys)
  : KeyboardEventHandler.t view_handler view_kwargs :=
  KeyboardEventHandler.add_group_handler KeyboardEventHandler.init
    (view_control_keys pygame) (adjust_view_point pygame) view_ref.

(** The [KEYDOWN] branch of the event loop:
    [if keyboard_event_handler.has_handler(e.key):
         keyboard_event_handler.get_handler(e.key)()].
    The result is the outcome of the handler on the [View] object; the
    [KeyError] of [get_handler] would end the program. *)
Definition keydown
    (keh : KeyboardEventHandler.t view_handler view_kwargs)
    (key : Z) (view : View.t) : subscript (result View.t) :=
  if KeyboardEventHandler.has_handler keh key then
    match KeyboardEventHandler.get_handler keh key with
    | Found c =>
        Found (KeyboardEventHandler.captured_handler c
                 (KeyboardEventHandler.captured_key c) view)
    | KeyError k => KeyError k
    end
  else Found (Ok view).

(** ** main: the scene *)

(** [Plane((2, 2, 1), 0)] *)
Definition main_plane : Plane.t :=
  Plane.mk (PyInt 2, PyInt 2, PyInt 1) (PyInt 0).

(** [view = View((0.0, 0.0, 0.0), Plane((2, 2, 1), 0))] *)
Definition main_view : result View.t :=
  View.init (PyFloat 0, PyFloat 0, PyFloat 0) main_plane View.default_basis.


(** * Vocabulary of the statements *)

(** A vector of floats. *)
Definition fl3 (v : Vector3 float) : Vector3f :=
  (PyFloat (get0 v), PyFloat (get1 v), PyFloat (get2 v)).

(** A vector of ints. *)
Definition int3 (v : Vector3 Z) : Vector3f :=
  (PyInt (get0 v), PyInt (get1 v), PyInt (get2 v)).

(** The computation raises no exception outside [allowed]. *)
Definition raises_only {A : Type} (allowed : list exn) (c : result A) : Prop :=
  forall e, c = Raise e -> In e allowed.

Definition is_float (x : num) : Prop :=
  match x with
  | PyFloat _ => True
  | PyInt _ => False
  end.

Definition floats (v : Vector3f) : Prop :=
  is_float (get0 v) /\ is_float (get1 v) /\ is_float (get2 v).

(** [x == 0]: an int zero, or a float that compares equal to zero. *)
Definition num_is_zero (x : num) : bool :=
  match x with
  | PyInt z => (z =? 0)%Z
  | PyFloat f => PrimFloat.eqb f zero
  end.

(** The exact value of a finite float, as a rational. *)
Definition SF2Q (x : spec_float) : option Q :=
  match x with
  | S754_zero _ => Some 0%Q
  | S754_finite s m e =>
      let n := if s then Zneg m else Zpos m in
      Some match e with
           | Z0 => (n # 1)%Q
           | Zpos p => (n * Z.pow_pos 2 p # 1)%Q
           | Zneg p => (n # Pos.pow 2 p)%Q
           end
  | S754_infinity _ => None
  | S754_nan => None
  end.

(** The exact value of a number; an infinity and nan have none. *)
Definition value (x : num) : option Q :=
  match x with
  | PyInt z => Some (inject_Z z)
  | PyFloat f => SF2Q (Prim2SF f)
  end.

Definition has_value (x : num) (q : Q) : Prop :=
  match value x with
  | Some v => (v == q)%Q
  | None => False
  end.

(** [n*a + m*b], formed by the program's own [mult_vec] and [sum_vec]. *)
Definition lincomb (n : num) (a : Vector3f) (m : num) (b : Vector3f)
  : result Vector3f :=
  na <- mult_vec a n ;;
  mb <- mult_vec b m ;;
  s <- sum_vec [na; mb] ;;
  as_Vector3f s.

(** The divisor of the first division of [decompose], as the code
    computes it. *)
Definition xy_det (a b : Vector3f) : rnum :=
  (get0 b * get1 a - get1 b * get0 a)%py.

(** The divisor of [Plane.project_vector], as the code computes it. *)
Definition ray_divisor (pl : Plane.t) (P V : Vector3f) : rnum :=
  mx <- (get0 P - get0 V)%py ;;
  my <- (get1 P - get1 V)%py ;;
  mz <- (get2 P - get2 V)%py ;;
  (get0 (Plane.normal pl) * mx + get1 (Plane.normal pl) * my
   + get2 (Plane.normal pl) * mz)%py.

(** [z] is the integer nearest to [q], the even one of the two when [q]
    lies half way between two integers (round-half-to-even). *)
Definition nearest_even (q : Q) (z : Z) : Prop :=
  (Qabs (q - inject_Z z) <= 1 # 2)%Q /\
  ((Qabs (q - inject_Z z) == 1 # 2)%Q -> Z.even z = true).

(** What [round] does on [x]: an int is returned as it is, a finite float
    is rounded half to even, nan raises [ValueError] and an infinity
    [OverflowError]. *)
Definition rounds_half_even (x : num) (r : result Z) : Prop :=
  match x with
  | PyInt z => r = Ok z
  | PyFloat f =>
      match Prim2SF f with
      | S754_nan => r = Raise ValueError
      | S754_infinity _ => r = Raise OverflowError
      | _ =>
          exists z : Z,
            r = Ok z /\
            match value x with
            | Some q => nearest_even q z
            | None => False
            end
      end
  end.

(** ** Exact runs

    A run is exact when every operand has an exact value and no operation
    raises or rounds.  The definitions below follow the code operation by
    operation and give [None] as soon as the run stops being exact. *)

Definition xnum : Type := option num.

Definition xret (x : num) : xnum := Some x.
Coercion xret : num >-> xnum.

Definition xbind {A B : Type} (c : option A) (k : A -> option B) : option B :=
  match c with
  | Some a => k a
  | None => None
  end.

Notation "x <-? c ;; k" := (xbind c (fun x => k))
  (at level 61, c at next level, right associativity).

(** [op x y] returns [r], and the value of [r] is [opQ] of the values of
    [x] and [y]. *)
Definition checked (op : num -> num -> result num) (opQ : Q -> Q -> Q)
    (a b : xnum) : xnum :=
  x <-? a ;;
  y <-? b ;;
  match op x y, value x, value y with
  | Ok r, Some X, Some Y =>
      match value r with
      | Some R => if Qeq_bool R (opQ X Y) then Some r else None
      | None => None
      end
  | _, _, _ => None
  end.

(** An exact division, by a divisor whose value is not zero. *)
Definition checked_div (a b : xnum) : xnum :=
  y <-? b ;;
  match value y with
  | Some Y => if Qeq_bool Y 0 then None else checked truediv Qdiv a b
  | None => None
  end.

(** An exact negation. *)
Definition checked_neg (a : xnum) : xnum :=
  x <-? a ;;
  match num_neg x, value x with
  | Ok r, Some X =>
      match value r with
      | Some R => if Qeq_bool R (- X) then Some r else None
      | None => None
      end
  | _, _ => None
  end.

Declare Scope exact_scope.
Delimit Scope exact_scope with ex.
Notation "a + b" := (checked num_add Qplus a b) : exact_scope.
Notation "a - b" := (checked num_sub Qminus a b) : exact_scope.
Notation "a * b" := (checked num_mul Qmult a b) : exact_scope.
Notation "a / b" := (checked_div a b) : exact_scope.
Notation "- a" := (checked_neg a) : exact_scope.

(** [math.fsum([x, y])], exact. *)
Definition checked_fsum2 (a b : xnum) : xnum :=
  checked (fun x y => fsum [x; y]) Qplus a b.

Definition mult_vec_exact (v : Vector3f) (m : num) : option Vector3f :=
  x <-? (get0 v * m)%ex ;;
  y <-? (get1 v * m)%ex ;;
  z <-? (get2 v * m)%ex ;;
  Some (x, y, z).

(** [sum_vec([u, v])], exact. *)
Definition sum_vec2_exact (u v : Vector3f) : option Vector3f :=
  x <-? checked_fsum2 (get0 u) (get0 v) ;;
  y <-? checked_fsum2 (get1 u) (get1 v) ;;
  z <-? checked_fsum2 (get2 u) (get2 v) ;;
  Some (x, y, z).

Definition lincomb_exact (n : num) (a : Vector3f) (m : num) (b : Vector3f)
  : option Vector3f :=
  na <-? mult_vec_exact a n ;;
  mb <-? mult_vec_exact b m ;;
  sum_vec2_exact na mb.

(** The try body of [decompose], exact: in particular neither divisor is
    zero. *)
Definition decompose_exact (v : Vector3f) (basis : Vector3f * Vector3f)
  : option Vector2f :=
  let a := fst basis in
  let b := snd basis in
  n <-? ((get0 v * get1 a - get1 v * get0 a)
         / (get0 b * get1 a - get1 b * get0 a))%ex ;;
  m <-? ((get0 v - n * get0 b) / get0 a)%ex ;;
  Some (n, m).

(** [Plane.project_vector], exact. *)
Definition project_vector_exact (self : Plane.t) (point view : Vector3f)
  : option Vector3f :=
  let A := get0 (Plane.normal self) in
  let B := get1 (Plane.normal self) in
  let C := get2 (Plane.normal self) in
  let D := Plane.intercept self in
  let x := get0 point in
  let y := get1 point in
  let z := get2 point in
  mx <-? (x - get0 view)%ex ;;
  my <-? (y - get1 view)%ex ;;
  mz <-? (z - get2 view)%ex ;;
  t <-? ((- (A * x + B * y + C * z + D)) / (A * mx + B * my + C * mz))%ex ;;
  x' <-? (x + t * mx)%ex ;;
  y' <-? (y + t * my)%ex ;;
  z' <-? (z + t * mz)%ex ;;
  Some (x', y', z').


(** A float whose value is not zero, and a vector of such floats. *)
Definition nonzero_float (x : num) : Prop := is_float x /\ ~ has_value x 0.



Definition Qdot (u v : Vector3 Q) : Q :=
  (get0 u * get0 v + get1 u * get1 v + get2 u * get2 v)%Q.

Definition Qvsub (u v : Vector3 Q) : Vector3 Q :=
  (get0 u - get0 v, get1 u - get1 v, get2 u - get2 v)%Q.

Definition Qveq (u v : Vector3 Q) : Prop :=
  (get0 u == get0 v /\ get1 u == get1 v /\ get2 u == get2 v)%Q.

(** [X] is on the plane [n . X + d = 0]. *)
Definition on_plane (n : Vector3 Q) (d : Q) (X : Vector3 Q) : Prop :=
  (Qdot n X + d == 0)%Q.

(** [X = P + t (P - V)], a point of the line through [V] and [P]. *)
Definition on_line (P V X : Vector3 Q) (t : Q) : Prop :=
  (get0 X == get0 P + t * (get0 P - get0 V) /\
   get1 X == get1 P + t * (get1 P - get1 V) /\
   get2 X == get2 P + t * (get2 P - get2 V))%Q.

(** The exact values of a vector, when all three components have one. *)
Definition values (v : Vector3f) : option (Vector3 Q) :=
  match value (get0 v), value (get1 v), value (get2 v) with
  | Some x, Some y, Some z => Some (x, y, z)
  | _, _, _ => None
  end.

(** The exact value of the determinant [b.x*a.y - b.y*a.x]. *)
Definition xy_det_value (a b : Vector3f) : option Q :=
  match value (get0 a), value (get1 a), value (get0 b), value (get1 b) with
  | Some a0, Some a1, Some b0, Some b1 => Some (b0 * a1 - b1 * a0)%Q
  | _, _, _, _ => None
  end.

(** The exact value of [normal . (P - V)]. *)
Definition ray_divisor_value (pl : Plane.t) (P V : Vector3f) : option Q :=
  match values (Plane.normal pl), values P, values V with
  | Some n, Some p, Some v => Some (Qdot n (Qvsub p v))
  | _, _, _ => None
  end.


(** * Which exceptions the arithmetic raises *)

Lemma float_of_int_raises (z : Z) (e : exn) :
  float_of_int z = Raise e -> e = OverflowError.
Proof.
  unfold float_of_int.
  destruct (binary_normalize prec emax z 0 false); congruence.
Qed.

Lemma as_float_raises (x : num) (e : exn) :
  as_float x = Raise e -> e = OverflowError.
Proof.
  destruct x; simpl; [apply float_of_int_raises | congruence].
Qed.

Lemma float_op_raises (op : float -> float -> float) (x y : num) (e : exn) :
  (a <- as_float x ;; b <- as_float y ;; Ok (PyFloat (op a b))) = Raise e ->
  e = OverflowError.
Proof.
  destruct (as_float x) eqn:Ex; cbn [bind].
  - destruct (as_float y) eqn:Ey; cbn [bind]; [congruence|].
    intros [= <-]. eapply as_float_raises; eauto.
  - intros [= <-]. eapply as_float_raises; eauto.
Qed.

Lemma num_add_raises (x y : num) : raises_only [OverflowError] (num_add x y).
Proof.
  intros e H. left. symmetry. revert H.
  destruct x, y; unfold num_add; try congruence;
    apply (float_op_raises PrimFloat.add).
Qed.

Lemma num_sub_raises (x y : num) : raises_only [OverflowError] (num_sub x y).
Proof.
  intros e H. left. symmetry. revert H.
  destruct x, y; unfold num_sub; try congruence;
    apply (float_op_raises PrimFloat.sub).
Qed.

Lemma num_mul_raises (x y : num) : raises_only [OverflowError] (num_mul x y).
Proof.
  intros e H. left. symmetry. revert H.
  destruct x, y; unfold num_mul; try congruence;
    apply (float_op_raises PrimFloat.mul).
Qed.

Lemma num_neg_raises (x : num) : raises_only [OverflowError] (num_neg x).
Proof. intros e H. destruct x; discriminate. Qed.

Lemma int_truediv_raises (a b : Z) (e : exn) :
  int_truediv a b = Raise e -> e = OverflowError.
Proof.
  unfold int_truediv.
  destruct a; [congruence| |];
    destruct (SFdiv_core_binary _ _ _ _ _ _) as [[q e'] l];
    destruct (binary_round_aux _ _ _ _ _ _); congruence.
Qed.

Lemma truediv_mixed_raises (x y : num) (e : exn) :
  (a <- as_float x ;;
   b <- as_float y ;;
   if PrimFloat.eqb b zero then Raise ZeroDivisionError
   else Ok (PyFloat (a / b))) = Raise e ->
  e = ZeroDivisionError \/ e = OverflowError.
Proof.
  destruct (as_float x) eqn:Ex; cbn [bind].
  - destruct (as_float y) eqn:Ey; cbn [bind].
    + destruct (PrimFloat.eqb a0 zero); [left|]; congruence.
    + intros [= <-]. right. eapply as_float_raises; eauto.
  - intros [= <-]. right. eapply as_float_raises; eauto.
Qed.

Lemma truediv_raises (x y : num) :
  raises_only [ZeroDivisionError; OverflowError] (truediv x y).
Proof.
  intros e H.
  assert (e = ZeroDivisionError \/ e = OverflowError) as [-> | ->];
    [|simpl; auto..].
  revert H. destruct x as [a|fa], y as [b|fb]; unfold truediv;
    try apply truediv_mixed_raises.
  destruct (b =? 0)%Z; [left; congruence|].
  destruct (int_truediv a b) eqn:E; cbn [bind]; [congruence|].
  intros [= <-]. right. eapply int_truediv_raises; eauto.
Qed.

Lemma raises_only_incl {A : Type} (l l' : list exn) (c : result A) :
  incl l l' -> raises_only l c -> raises_only l' c.
Proof. intros Hi H e He. apply Hi, H, He. Qed.

Lemma raises_only_Ok {A : Type} (l : list exn) (a : A) : raises_only l (Ok a).
Proof. intros e H. discriminate. Qed.

Lemma raises_only_ret (l : list exn) (x : num) : raises_only l (ret x).
Proof. apply raises_only_Ok. Qed.

Lemma raises_only_bind {A B : Type} (l : list exn) (c : result A)
    (k : A -> result B) :
  raises_only l c -> (forall a, raises_only l (k a)) ->
  raises_only l (bind c k).
Proof.
  intros Hc Hk e. destruct c as [a|e']; cbn [bind].
  - apply Hk.
  - intros [= <-]. apply Hc. reflexivity.
Qed.

Lemma raises_only_binop (l : list exn) (op : num -> num -> result num)
    (a b : rnum) :
  (forall x y, raises_only l (op x y)) ->
  raises_only l a -> raises_only l b -> raises_only l (binop op a b).
Proof.
  intros Hop Ha Hb. unfold binop.
  apply raises_only_bind; [exact Ha|]. intros x.
  apply raises_only_bind; [exact Hb|]. intros y. apply Hop.
Qed.

Lemma raises_only_unop (l : list exn) (op : num -> result num) (a : rnum) :
  (forall x, raises_only l (op x)) ->
  raises_only l a -> raises_only l (unop op a).
Proof.
  intros Hop Ha. unfold unop.
  apply raises_only_bind; [exact Ha|]. intros x. apply Hop.
Qed.

Lemma incl_overflow_arith :
  incl [OverflowError] [ZeroDivisionError; OverflowError].
Proof. intros e [<- | []]. simpl. auto. Qed.

Lemma num_add_raises2 (x y : num) :
  raises_only [ZeroDivisionError; OverflowError] (num_add x y).
Proof. eapply raises_only_incl; [apply incl_overflow_arith | apply num_add_raises]. Qed.

Lemma num_sub_raises2 (x y : num) :
  raises_only [ZeroDivisionError; OverflowError] (num_sub x y).
Proof. eapply raises_only_incl; [apply incl_overflow_arith | apply num_sub_raises]. Qed.

Lemma num_mul_raises2 (x y : num) :
  raises_only [ZeroDivisionError; OverflowError] (num_mul x y).
Proof. eapply raises_only_incl; [apply incl_overflow_arith | apply num_mul_raises]. Qed.

Lemma num_neg_raises2 (x : num) :
  raises_only [ZeroDivisionError; OverflowError] (num_neg x).
Proof. eapply raises_only_incl; [apply incl_overflow_arith | apply num_neg_raises]. Qed.

(** Expressions built from the operators raise what the operators raise. *)
Ltac raises_only_expr :=
  repeat first
    [ apply raises_only_ret
    | apply raises_only_Ok
    | apply raises_only_binop;
      [ intros ? ?;
        first [ apply num_add_raises | apply num_sub_raises
              | apply num_mul_raises | apply num_add_raises2
              | apply num_sub_raises2 | apply num_mul_raises2
              | apply truediv_raises ] | | ]
    | apply raises_only_unop;
      [ intros ?; first [ apply num_neg_raises | apply num_neg_raises2 ] | ]
    | apply raises_only_bind; [ | intros ? ] ].

(** A division by a number that compares equal to zero. *)
Lemma float_of_int_0 : float_of_int 0 = Ok zero.
Proof. reflexivity. Qed.

Lemma eqb_zero_zero : PrimFloat.eqb zero zero = true.
Proof. reflexivity. Qed.

Lemma truediv_by_zero (x d : num) :
  num_is_zero d = true ->
  truediv x d = Raise ZeroDivisionError \/ truediv x d = Raise OverflowError.
Proof.
  intros Hd. destruct x as [a|fa], d as [b|fb]; simpl in Hd.
  - left. unfold truediv. rewrite Hd. reflexivity.
  - unfold truediv. destruct (as_float (PyInt a)) eqn:E; cbn [bind as_float].
    + left. rewrite Hd. reflexivity.
    + right. f_equal. eapply as_float_raises; eauto.
  - left. apply Z.eqb_eq in Hd. subst b. reflexivity.
  - left. unfold truediv. cbn [bind as_float]. rewrite Hd. reflexivity.
Qed.

Lemma div_by_zero (a : rnum) (d : num) :
  raises_only [OverflowError] a ->
  num_is_zero d = true ->
  binop truediv a (Ok d) = Raise ZeroDivisionError \/
  binop truediv a (Ok d) = Raise OverflowError.
Proof.
  intros Ha Hd. unfold binop. destruct a as [x|e]; cbn [bind].
  - apply truediv_by_zero, Hd.
  - right. destruct (Ha e eq_refl) as [<- | []]. reflexivity.
Qed.

Lemma decompose_body_first (v a b : Vector3f) :
  raises_only [OverflowError]
    (get0 v * get1 a - get1 v * get0 a)%py.
Proof. raises_only_expr. Qed.

Lemma decompose_body_second (v b : Vector3f) (n : num) :
  raises_only [OverflowError] (get0 v - n * get0 b)%py.
Proof. raises_only_expr. Qed.

Lemma decompose_singular_outcome (v a b : Vector3f) :
  (exists d, xy_det a b = Ok d /\ num_is_zero d = true) \/
  num_is_zero (get0 a) = true ->
  decompose v (a, b) = Ok (PyInt 0, PyInt 0) \/
  decompose v (a, b) = Raise OverflowError.
Proof.
  intros H. unfold decompose. cbn [fst snd].
  destruct H as [(d & Hd & Hz) | Hz].
  - unfold xy_det in Hd.
    change ((get0 v * get1 a - get1 v * get0 a)
            / (get0 b * get1 a - get1 b * get0 a))%py
      with (binop truediv (get0 v * get1 a - get1 v * get0 a)%py
              (get0 b * get1 a - get1 b * get0 a)%py).
    rewrite Hd.
    destruct (div_by_zero _ d (decompose_body_first v a b) Hz) as [-> | ->];
      cbn [bind try_except_ZeroDivisionError]; auto.
  - destruct ((get0 v * get1 a - get1 v * get0 a)
              / (get0 b * get1 a - get1 b * get0 a))%py as [n|e] eqn:E1;
      cbn [bind].
    + pose proof (div_by_zero _ (get0 a) (decompose_body_second v b n) Hz)
        as E2.
      change (Ok (get0 a)) with (ret (get0 a)) in E2.
      destruct E2 as [E2 | E2]; rewrite E2;
        cbn [bind try_except_ZeroDivisionError]; auto.
    + assert (He : In e [ZeroDivisionError; OverflowError]).
      { revert E1. generalize e. 
        change (raises_only [ZeroDivisionError; OverflowError]
          ((get0 v * get1 a - get1 v * get0 a)
              / (get0 b * get1 a - get1 b * get0 a))%py).
        raises_only_expr. }
      destruct He as [<- | [<- | []]];
        cbn [try_except_ZeroDivisionError]; auto.
Qed.

Lemma floats_fl3 (v : Vector3f) : floats v -> exists f, v = fl3 f.
Proof.
  destruct v as [[x y] z]. intros (Hx & Hy & Hz). cbn in Hx, Hy, Hz.
  destruct x as [|x]; [contradiction|].
  destruct y as [|y]; [contradiction|].
  destruct z as [|z]; [contradiction|].
  exists (x, y, z). reflexivity.
Qed.

Lemma decompose_floats (v a b : Vector3 float) :
  decompose (fl3 v) (fl3 a, fl3 b) =
  if PrimFloat.eqb (get0 b * get1 a - get1 b * get0 a) zero
  then Ok (PyInt 0, PyInt 0)
  else if PrimFloat.eqb (get0 a) zero then Ok (PyInt 0, PyInt 0)
  else
    let n := ((get0 v * get1 a - get1 v * get0 a)
              / (get0 b * get1 a - get1 b * get0 a))%float in
    Ok (PyFloat n, PyFloat ((get0 v - n * get0 b) / get0 a)).
Proof.
  destruct v as [[v0 v1] v2], a as [[a0 a1] a2], b as [[b0 b1] b2].
  unfold decompose, fl3, get0, get1, get2, binop, ret.
  cbn [fst snd bind num_mul num_sub truediv as_float].
  destruct (PrimFloat.eqb (b0 * a1 - b1 * a0) zero);
    cbn [bind try_except_ZeroDivisionError num_mul num_sub truediv as_float];
    [reflexivity|].
  destruct (PrimFloat.eqb a0 zero); reflexivity.
Qed.

Lemma xy_det_floats (a b : Vector3 float) :
  xy_det (fl3 a) (fl3 b) =
  Ok (PyFloat (get0 b * get1 a - get1 b * get0 a)).
Proof. reflexivity. Qed.

(** * decompose *)

(** C9.  [decompose] depends only on the x and y components of its
    inputs: two calls whose [v], [a] and [b] agree on the components 0 and
    1 give the same outcome, the same pair or the same exception, whatever
    the z components are. *)
Theorem decompose_xy_only (v a b v' a' b' : Vector3f) :
  get0 v = get0 v' -> get1 v = get1 v' ->
  get0 a = get0 a' -> get1 a = get1 a' ->
  get0 b = get0 b' -> get1 b = get1 b' ->
  decompose v (a, b) = decompose v' (a', b').
Proof.
  intros Hv0 Hv1 Ha0 Ha1 Hb0 Hb1. unfold decompose. cbn [fst snd].
  rewrite Hv0, Hv1, Ha0, Ha1, Hb0, Hb1. reflexivity.
Qed.

Lemma decompose_xy_only_witness :
  decompose (PyFloat 3, PyInt 4, PyFloat 5)
            ((PyInt 1, PyInt 0, PyInt 7), (PyInt 1, PyInt 1, PyFloat 8)) =
  decompose (PyFloat 3, PyInt 4, PyInt (-2))
            ((PyInt 1, PyInt 0, PyFloat nan), (PyInt 1, PyInt 1, PyInt 0)).
Proof.
  apply decompose_xy_only; reflexivity.
Defined.

(** C4.  When the divisor the code computes for its first division,
    [b.x*a.y - b.y*a.x], compares equal to zero, or [a.x] does,
    [decompose] returns [(0, 0)] or raises [OverflowError] (an int operand
    too large for a float); on float components it returns [(0, 0)]. *)
Theorem decompose_degenerate (v a b : Vector3f) :
  (exists d, xy_det a b = Ok d /\ num_is_zero d = true) \/
  num_is_zero (get0 a) = true ->
  (decompose v (a, b) = Ok (PyInt 0, PyInt 0) \/
   decompose v (a, b) = Raise OverflowError) /\
  (floats v -> floats a -> floats b ->
   decompose v (a, b) = Ok (PyInt 0, PyInt 0)).
Proof.
  intros H. split; [apply decompose_singular_outcome, H|].
  intros Hv Ha Hb.
  destruct (floats_fl3 v Hv) as [fv ->].
  destruct (floats_fl3 a Ha) as [fa ->].
  destruct (floats_fl3 b Hb) as [fb ->].
  rewrite decompose_floats.
  destruct H as [(d & Hd & Hz) | Hz].
  - rewrite xy_det_floats in Hd. injection Hd as <-. cbn in Hz.
    rewrite Hz. reflexivity.
  - destruct (PrimFloat.eqb (get0 fb * get1 fa - get1 fb * get0 fa) zero);
      [reflexivity|].
    destruct fa as [[a0 a1] a2]. cbn in Hz. cbn [get0 fst].
    rewrite Hz. reflexivity.
Qed.

Lemma decompose_degenerate_witness :
  (decompose (PyFloat 5, PyFloat 7, PyFloat 0)
     ((PyFloat 1, PyFloat 2, PyFloat 0), (PyFloat 2, PyFloat 4, PyFloat 0))
   = Ok (PyInt 0, PyInt 0) \/
   decompose (PyFloat 5, PyFloat 7, PyFloat 0)
     ((PyFloat 1, PyFloat 2, PyFloat 0), (PyFloat 2, PyFloat 4, PyFloat 0))
   = Raise OverflowError) /\
  (floats (PyFloat 5, PyFloat 7, PyFloat 0) ->
   floats (PyFloat 1, PyFloat 2, PyFloat 0) ->
   floats (PyFloat 2, PyFloat 4, PyFloat 0) ->
   decompose (PyFloat 5, PyFloat 7, PyFloat 0)
     ((PyFloat 1, PyFloat 2, PyFloat 0), (PyFloat 2, PyFloat 4, PyFloat 0))
   = Ok (PyInt 0, PyInt 0)).
Proof.
  apply decompose_degenerate.
  left. exists (PyFloat 0). split; reflexivity.
Defined.

(** C4, the claim as stated fails on floats: for [a = b = (1e200, 1e200,
    0)] the determinant is exactly zero, but the code computes
    [inf - inf], a nan, which does not compare equal to zero; nothing is
    raised and the result is [(nan, nan)].  And with [a.x = 0.0] an int
    component of [v] too large for a float raises [OverflowError], which
    the except clause does not catch. *)
Lemma decompose_degenerate_counterexample :
  let a := fl3 (0x1.4e718d7d7625ap+664, 0x1.4e718d7d7625ap+664, 0)%float in
  let v := fl3 (1, 2, 0)%float in
  match xy_det_value a a with
  | Some q => (q == 0)%Q
  | None => False
  end /\
  xy_det a a = Ok (PyFloat nan) /\
  decompose v (a, a) = Ok (PyFloat nan, PyFloat nan) /\
  decompose (PyInt (10 ^ 400), PyInt 0, PyInt 0)
    (fl3 (0, 1, 0)%float, fl3 (1, 0, 0)%float) = Raise OverflowError.
Proof. vm_compute. repeat split. Qed.

(** * Which exceptions the sums raise *)

Lemma fsum_step_raises (st : fsum_state) (x : float) :
  raises_only [ValueError; OverflowError] (fsum_step st x).
Proof.
  intros e. unfold fsum_step.
  destruct (fsum_add x (partials st)) as [y ps].
  destruct (float_ne y zero); [|discriminate].
  destruct (negb (is_finite y)); [|discriminate].
  destruct (is_finite x); [|discriminate].
  intros [= <-]. simpl. auto.
Qed.

Lemma fsum_finish_raises (st : fsum_state) :
  raises_only [ValueError; OverflowError] (fsum_finish st).
Proof.
  intros e. unfold fsum_finish.
  destruct (float_ne (special_sum st) zero).
  - destruct (is_nan (inf_sum st)); [|discriminate].
    intros [= <-]. simpl. auto.
  - destruct (rev (partials st)) as [|top below]; [discriminate|].
    destruct (fsum_top top below) as [[hi lo] rest].
    destruct rest as [|p rest]; [discriminate|].
    destruct (_ || _); [|discriminate].
    destruct (PrimFloat.eqb _ _); discriminate.
Qed.

Lemma fsum_loop_raises (l : list num) (st : fsum_state) :
  raises_only [ValueError; OverflowError] (fsum_loop st l).
Proof.
  revert st. induction l as [|item rest IH]; intros st; cbn [fsum_loop].
  - apply fsum_finish_raises.
  - apply raises_only_bind.
    + intros e H. apply as_float_raises in H. subst e. simpl. auto.
    + intros x. apply raises_only_bind; [apply fsum_step_raises|].
      intros st'. apply IH.
Qed.

Lemma fsum_raises (l : list num) :
  raises_only [ValueError; OverflowError] (fsum l).
Proof.
  unfold fsum. apply raises_only_bind; [apply fsum_loop_raises|].
  intros s. apply raises_only_Ok.
Qed.

Lemma fsum_returns_float (l : list num) (x : num) :
  fsum l = Ok x -> is_float x.
Proof.
  unfold fsum. destruct (fsum_loop _ l); cbn [bind]; [|discriminate].
  intros [= <-]. exact I.
Qed.

Lemma sum_vec_raises (l : list Vector3f) :
  raises_only [ValueError; OverflowError] (sum_vec l).
Proof.
  unfold sum_vec. generalize (zip_star l). intros cols.
  induction cols as [|c cols IH]; cbn [map_result].
  - apply raises_only_Ok.
  - apply raises_only_bind; [apply fsum_raises|]. intros b.
    apply raises_only_bind; [exact IH|]. intros bs. apply raises_only_Ok.
Qed.

(** * sum_vec and View.move_point *)

Lemma sum_vec_pair (u v : Vector3f) :
  sum_vec [u; v] =
  (x <- fsum [get0 u; get0 v] ;;
   y <- fsum [get1 u; get1 v] ;;
   z <- fsum [get2 u; get2 v] ;;
   Ok [x; y; z]).
Proof.
  unfold sum_vec. cbn [zip_star map map_result].
  destruct (fsum [get0 u; get0 v]); cbn [bind]; [|reflexivity].
  destruct (fsum [get1 u; get1 v]); cbn [bind]; [|reflexivity].
  destruct (fsum [get2 u; get2 v]); cbn [bind]; reflexivity.
Qed.

(** The sum of a list of two vectors has exactly three items. *)
Lemma sum_vec_pair_items (u v : Vector3f) (s : pytuple) :
  sum_vec [u; v] = Ok s ->
  exists x y z,
    s = [x; y; z] /\
    fsum [get0 u; get0 v] = Ok x /\
    fsum [get1 u; get1 v] = Ok y /\
    fsum [get2 u; get2 v] = Ok z.
Proof.
  rewrite sum_vec_pair.
  destruct (fsum [get0 u; get0 v]) as [x|]; cbn [bind]; [|discriminate].
  destruct (fsum [get1 u; get1 v]) as [y|]; cbn [bind]; [|discriminate].
  destruct (fsum [get2 u; get2 v]) as [z|]; cbn [bind]; [|discriminate].
  intros [= <-]. exists x, y, z. repeat split.
Qed.

Lemma move_point_cases (self : View.t) (v : Vector3f) :
  match View.move_point self v with
  | Ok self' =>
      exists x y z,
        self' = View.mk (x, y, z) (View.plane self) (View.basis self) /\
        fsum [get0 (View.point self); get0 v] = Ok x /\
        fsum [get1 (View.point self); get1 v] = Ok y /\
        fsum [get2 (View.point self); get2 v] = Ok z
  | Raise e => sum_vec [View.point self; v] = Raise e
  end.
Proof.
  unfold View.move_point.
  destruct (sum_vec [View.point self; v]) as [s|e] eqn:E; cbn [bind];
    [|reflexivity].
  destruct (sum_vec_pair_items _ _ _ E) as (x & y & z & -> & Hx & Hy & Hz).
  cbn [as_Vector3f bind]. exists x, y, z. repeat split; assumption.
Qed.

(** C8.  [move_point(v)] sets the viewpoint to the component-wise sum of
    the viewpoint and [v], each component being [math.fsum] of the two
    components, and changes nothing else: the plane, with its normal and
    its intercept, and the cached basis pair are the same before and after
    the call.  When the sum raises, the exception is that of [sum_vec], a
    [ValueError] or an [OverflowError], and nothing is assigned. *)
Theorem move_point_frame (self : View.t) (v : Vector3f) :
  match View.move_point self v with
  | Ok self' =>
      fsum [get0 (View.point self); get0 v] = Ok (get0 (View.point self')) /\
      fsum [get1 (View.point self); get1 v] = Ok (get1 (View.point self')) /\
      fsum [get2 (View.point self); get2 v] = Ok (get2 (View.point self')) /\
      View.plane self' = View.plane self /\
      Plane.normal (View.plane self') = Plane.normal (View.plane self) /\
      Plane.intercept (View.plane self') = Plane.intercept (View.plane self) /\
      View.basis self' = View.basis self
  | Raise e =>
      sum_vec [View.point self; v] = Raise e /\
      (e = ValueError \/ e = OverflowError)
  end.
Proof.
  pose proof (move_point_cases self v) as H.
  destruct (View.move_point self v) as [self'|e].
  - destruct H as (x & y & z & -> & Hx & Hy & Hz).
    cbn [View.point View.plane View.basis get0 get1 get2 fst snd].
    repeat split; assumption.
  - split; [exact H|].
    destruct (sum_vec_raises _ _ H) as [<- | [<- | []]]; auto.
Qed.

(** C8, the claim as stated fails where the sum has no float: from the
    viewpoint [(max, 0, 0)], [max] the largest float, the move by
    [(max, 0, 0)] raises [OverflowError], and from [(inf, 0, 0)] the move
    by [(-inf, 0, 0)] raises [ValueError]; the viewpoint is not set. *)
Lemma move_point_frame_counterexample :
  let pl := Plane.mk (fl3 (0, 0, 1)%float) (PyFloat 0) in
  let basis := (fl3 (1, 0, 0)%float, fl3 (0, 1, 0)%float) in
  View.move_point
    (View.mk (fl3 (0x1.fffffffffffffp+1023, 0, 0)%float) pl basis)
    (fl3 (0x1.fffffffffffffp+1023, 0, 0)%float) = Raise OverflowError /\
  View.move_point
    (View.mk (fl3 (infinity, 0, 0)%float) pl basis)
    (fl3 (neg_infinity, 0, 0)%float) = Raise ValueError.
Proof. vm_compute. split; reflexivity. Qed.

(** * Plane.project_vector *)

Lemma project_vector_raises_only (self : Plane.t) (P V : Vector3f) :
  raises_only [ZeroDivisionError; OverflowError]
    (Plane.project_vector self P V).
Proof. unfold Plane.project_vector. raises_only_expr. Qed.

Lemma project_vector_floats (n P V : Vector3 float) (D : float) :
  Plane.project_vector (Plane.mk (fl3 n) (PyFloat D)) (fl3 P) (fl3 V) =
  let mx := (get0 P - get0 V)%float in
  let my := (get1 P - get1 V)%float in
  let mz := (get2 P - get2 V)%float in
  let d := (get0 n * mx + get1 n * my + get2 n * mz)%float in
  if PrimFloat.eqb d zero then Raise ZeroDivisionError
  else
    let t := (- (get0 n * get0 P + get1 n * get1 P + get2 n * get2 P + D)
              / d)%float in
    Ok (fl3 (get0 P + t * mx, get1 P + t * my, get2 P + t * mz)%float).
Proof.
  destruct n as [[A B] C], P as [[x y] z], V as [[v0 v1] v2].
  unfold Plane.project_vector, fl3, get0, get1, get2, binop, unop, ret.
  cbn [fst snd bind num_mul num_sub num_add num_neg truediv as_float
       Plane.normal Plane.intercept].
  destruct (PrimFloat.eqb _ zero); reflexivity.
Qed.

(** A plane given by ints, as the one of [main], acts on points of floats
    as the plane of the converted floats. *)
Lemma project_vector_int_plane (n : Vector3 Z) (D : Z) (fn : Vector3 float)
    (fD : float) (P V : Vector3 float) :
  float_of_int (get0 n) = Ok (get0 fn) ->
  float_of_int (get1 n) = Ok (get1 fn) ->
  float_of_int (get2 n) = Ok (get2 fn) ->
  float_of_int D = Ok fD ->
  Plane.project_vector (Plane.mk (int3 n) (PyInt D)) (fl3 P) (fl3 V) =
  Plane.project_vector (Plane.mk (fl3 fn) (PyFloat fD)) (fl3 P) (fl3 V).
Proof.
  destruct n as [[A B] C], fn as [[fA fB] fC], P as [[x y] z],
    V as [[v0 v1] v2].
  cbn [get0 get1 get2 fst snd]. intros HA HB HC HD.
  unfold Plane.project_vector, fl3, int3, get0, get1, get2, binop, unop, ret.
  cbn [fst snd bind num_mul num_sub num_add num_neg truediv as_float
       Plane.normal Plane.intercept].
  repeat (first [rewrite HA | rewrite HB | rewrite HC | rewrite HD];
          cbn [bind num_mul num_sub num_add num_neg truediv as_float]).
  reflexivity.
Qed.

Lemma ray_divisor_floats (n P V : Vector3 float) (D : float) :
  ray_divisor (Plane.mk (fl3 n) (PyFloat D)) (fl3 P) (fl3 V) =
  Ok (PyFloat (get0 n * (get0 P - get0 V) + get1 n * (get1 P - get1 V)
               + get2 n * (get2 P - get2 V))).
Proof. reflexivity. Qed.

Lemma project_vector_ints (n P V : Vector3 Z) (D : Z) :
  Plane.project_vector (Plane.mk (int3 n) (PyInt D)) (int3 P) (int3 V)
    = Raise ZeroDivisionError <->
  (get0 n * (get0 P - get0 V) + get1 n * (get1 P - get1 V)
   + get2 n * (get2 P - get2 V) = 0)%Z.
Proof.
  destruct n as [[A B] C], P as [[x y] z], V as [[v0 v1] v2].
  unfold Plane.project_vector, int3, get0, get1, get2.
  cbn [fst snd Plane.normal Plane.intercept].
  unfold binop at 1 2 3. unfold ret at 1 2 3 4 5 6.
  cbn [bind num_sub].
  set (d := (A * (x - v0) + B * (y - v1) + C * (z - v2))%Z).
  match goal with
  | |- bind ?c ?k = _ <-> _ =>
      assert (Hc : c = if (d =? 0)%Z then Raise ZeroDivisionError
                       else q <- int_truediv
                                   (- (A * x + B * y + C * z + D)) d ;;
                            Ok (PyFloat q)) by reflexivity;
      assert (Hk : forall t, raises_only [OverflowError] (k t))
        by (intros t; raises_only_expr);
      rewrite Hc; clear Hc
  end.
  destruct (d =? 0)%Z eqn:Ed.
  - cbn [bind]. apply Z.eqb_eq in Ed. tauto.
  - apply Z.eqb_neq in Ed. split; [|tauto]. intros H. exfalso.
    destruct (int_truediv _ d) as [q|e] eqn:Eq; cbn [bind] in H.
    + destruct (Hk _ _ H) as [? | []]. discriminate.
    + apply int_truediv_raises in Eq. congruence.
Qed.

(** C6.  [project_vector] raises nothing but [ZeroDivisionError] and
    [OverflowError].  On floats it raises [ZeroDivisionError] exactly when
    the divisor it computes, the rounded [A*mx + B*my + C*mz], compares
    equal to zero, and returns a point otherwise.  On ints, whose divisor
    is computed exactly, it raises [ZeroDivisionError] exactly when
    [normal . (P - V) = 0]. *)
Theorem project_vector_raises_iff :
  (forall self P V,
     raises_only [ZeroDivisionError; OverflowError]
       (Plane.project_vector self P V)) /\
  (forall (n P V : Vector3 float) (D : float),
     let self := Plane.mk (fl3 n) (PyFloat D) in
     exists d : float,
       ray_divisor self (fl3 P) (fl3 V) = Ok (PyFloat d) /\
       (Plane.project_vector self (fl3 P) (fl3 V) = Raise ZeroDivisionError
        <-> PrimFloat.eqb d zero = true) /\
       (PrimFloat.eqb d zero = false ->
        exists X, Plane.project_vector self (fl3 P) (fl3 V) = Ok (fl3 X))) /\
  (forall (n P V : Vector3 Z) (D : Z),
     Plane.project_vector (Plane.mk (int3 n) (PyInt D)) (int3 P) (int3 V)
       = Raise ZeroDivisionError <->
     (get0 n * (get0 P - get0 V) + get1 n * (get1 P - get1 V)
      + get2 n * (get2 P - get2 V) = 0)%Z).
Proof.
  split; [exact project_vector_raises_only|].
  split; [|exact project_vector_ints].
  intros n P V D self. unfold self.
  eexists. split; [apply ray_divisor_floats|].
  rewrite project_vector_floats. cbv zeta.
  destruct (PrimFloat.eqb _ zero).
  - split; [tauto|discriminate].
  - split; [split; discriminate|]. intros _. eexists. reflexivity.
Qed.

(** C6, the claim as stated fails on floats, in both directions.  With
    normal [(1 + 2^-30, -1, 0)], [P = (1 - 2^-30, 1, 0)] and [V] the origin
    the exact [normal . (P - V)] is [-2^-60], not zero, but the computed
    divisor is [0.0] and the call raises [ZeroDivisionError].  With normal
    [(1, -1, -1)], [P = (0.1, 0.1, 0.2)] and [V = (-0.2, 0, 0)] the exact
    [normal . (P - V)] is zero, but the computed divisor is not and the
    call returns a point. *)
Lemma project_vector_raises_iff_counterexample :
  (let pl := Plane.mk (fl3 (0x1.00000004p+0, -1, 0)%float) (PyFloat 0) in
   let P := fl3 (0x1.fffffff8p-1, 1, 0)%float in
   let V := fl3 (0, 0, 0)%float in
   match ray_divisor_value pl P V with
   | Some q => ~ (q == 0)%Q
   | None => False
   end /\
   Plane.project_vector pl P V = Raise ZeroDivisionError) /\
  (let pl := Plane.mk (fl3 (1, -1, -1)%float) (PyFloat 0) in
   let P := fl3 (0x1.999999999999ap-4, 0x1.999999999999ap-4,
                 0x1.999999999999ap-3)%float in
   let V := fl3 (-0x1.999999999999ap-3, 0, 0)%float in
   match ray_divisor_value pl P V with
   | Some q => (q == 0)%Q
   | None => False
   end /\
   exists X, Plane.project_vector pl P V = Ok X).
Proof.
  split.
  - vm_compute. split; [discriminate|reflexivity].
  - vm_compute. split; [reflexivity|eexists; reflexivity].
Qed.


(** * round *)

Lemma Qabs_frac_sub (m a : Z) (d : positive) :
  (Qabs ((m # d) - inject_Z a) == (Z.abs (m - a * Zpos d) # d))%Q.
Proof.
  transitivity (Qabs ((m - a * Zpos d) # d)); [|reflexivity].
  apply Qabs_wd. unfold Qeq, Qminus, Qplus, Qopp, inject_Z. simpl.
  rewrite Pos.mul_1_r. ring.
Qed.

Lemma nearest_even_frac (m a : Z) (d : positive) :
  (2 * Z.abs (m - a * Zpos d) <= Zpos d)%Z ->
  ((2 * Z.abs (m - a * Zpos d) = Zpos d)%Z -> Z.even a = true) ->
  nearest_even (m # d) a.
Proof.
  intros Hle Htie. unfold nearest_even. split.
  - rewrite Qabs_frac_sub. unfold Qle. simpl. lia.
  - rewrite Qabs_frac_sub. unfold Qeq. simpl. intros H. apply Htie. lia.
Qed.

Lemma nearest_even_int (n : Z) : nearest_even (n # 1) n.
Proof. apply nearest_even_frac; lia. Qed.

Lemma round_half_even_shift_pos (m p : positive) :
  nearest_even (Zpos m # Pos.pow 2 p) (round_half_even_shift m p).
Proof.
  unfold round_half_even_shift.
  rewrite <- Pos2Z.inj_pow_pos.
  set (d := Zpos (2 ^ p)).
  pose proof (Z.div_mod (Zpos m) d ltac:(unfold d; lia)) as Hm.
  pose proof (Z.mod_pos_bound (Zpos m) d ltac:(unfold d; lia)) as Hr.
  set (q := (Zpos m / d)%Z) in *. set (r := (Zpos m mod d)%Z) in *.
  destruct (2 * r ?= d)%Z eqn:Ec.
  - apply Z.compare_eq in Ec.
    destruct (Z.even q) eqn:Eq.
    + apply nearest_even_frac; fold d; [lia|auto].
    + apply nearest_even_frac; fold d; [lia|].
      intros _. rewrite Z.add_1_r, Z.even_succ, <- Z.negb_even, Eq.
      reflexivity.
  - rewrite Z.compare_lt_iff in Ec.
    apply nearest_even_frac; fold d; lia.
  - rewrite Z.compare_gt_iff in Ec.
    apply nearest_even_frac; fold d; lia.
Qed.

Lemma round_half_even_shift_neg (m p : positive) :
  nearest_even (Zneg m # Pos.pow 2 p) (- round_half_even_shift m p).
Proof.
  destruct (round_half_even_shift_pos m p) as [Hle Htie].
  rewrite Qabs_frac_sub in Hle, Htie.
  unfold Qle in Hle. unfold Qeq in Htie. cbn [Qnum Qden] in Hle, Htie.
  change (Zneg m) with (- Zpos m)%Z.
  set (a := round_half_even_shift m p) in *.
  set (d := Zpos (2 ^ p)) in *.
  apply nearest_even_frac; fold d.
  - lia.
  - intros H. rewrite Z.even_opp. apply Htie. lia.
Qed.

(** The integer that [nearest_even] describes is unique: round-half-to-even
    is a function. *)
Lemma nearest_even_unique (q : Q) (z1 z2 : Z) :
  nearest_even q z1 -> nearest_even q z2 -> z1 = z2.
Proof.
  destruct q as [a b]. unfold nearest_even.
  rewrite !Qabs_frac_sub. unfold Qle, Qeq. cbn [Qnum Qden].
  intros [L1 T1] [L2 T2].
  destruct (Z.eq_dec z1 z2) as [E|N]; [exact E|exfalso].
  assert (H : (z2 = z1 + 1 \/ z1 = z2 + 1)%Z) by nia.
  assert (E1 : Z.even z1 = true) by (apply T1; nia).
  assert (E2 : Z.even z2 = true) by (apply T2; nia).
  destruct H as [-> | ->].
  - rewrite Z.add_1_r, Z.even_succ, <- Z.negb_even, E1 in E2. discriminate.
  - rewrite Z.add_1_r, Z.even_succ, <- Z.negb_even, E2 in E1. discriminate.
Qed.

(** [round] rounds half to even, and raises on nan and on an infinity. *)
Lemma py_round_spec (x : num) : rounds_half_even x (py_round x).
Proof.
  destruct x as [z|f]; [reflexivity|].
  unfold rounds_half_even, py_round, value.
  destruct (Prim2SF f) as [s|s| |s m e]; try reflexivity.
  - exists 0%Z. split; [reflexivity|]. apply (nearest_even_int 0).
  - eexists. split; [reflexivity|]. unfold SF2Q.
    destruct e as [|p|p], s;
      try apply nearest_even_int;
      try apply round_half_even_shift_pos;
      try apply round_half_even_shift_neg.
    + replace (- (Zpos m * Z.pow_pos 2 p))%Z with (Zneg m * Z.pow_pos 2 p)%Z
        by (change (Zneg m) with (- Zpos m)%Z; ring).
      apply nearest_even_int.
Qed.

(** * View.project_point *)

(** C5.  [project_point(p)] is the composition of [project_vector] from
    the viewpoint, [decompose] in the cached basis, and [round] of both
    scalars: an exception of either step is the outcome; otherwise each
    scalar is rounded half to even, and the result is a pair of integers
    unless a scalar is a nan ([ValueError]) or an infinity
    ([OverflowError]). *)
Theorem project_point_composition (self : View.t) (p : Vector3f) :
  match Plane.project_vector (View.plane self) p (View.point self) with
  | Raise e => View.project_point self p = Raise e
  | Ok X =>
      match decompose X (View.basis self) with
      | Raise e => View.project_point self p = Raise e
      | Ok (n, m) =>
          exists ri rj : result Z,
            rounds_half_even n ri /\
            rounds_half_even m rj /\
            View.project_point self p =
            match ri, rj with
            | Ok i, Ok j => Ok (i, j)
            | Raise e, _ => Raise e
            | Ok _, Raise e => Raise e
            end
      end
  end.
Proof.
  unfold View.project_point.
  destruct (Plane.project_vector _ _ _) as [X|e]; cbn [bind]; [|reflexivity].
  destruct (decompose X _) as [[n m]|e]; cbn [bind fst snd]; [|reflexivity].
  exists (py_round n), (py_round m).
  split; [apply py_round_spec|]. split; [apply py_round_spec|].
  destruct (py_round n); cbn [bind]; [|reflexivity].
  destruct (py_round m); reflexivity.
Qed.

(** C5, the claim as stated fails: the result is not always a pair of
    integers.  From the viewpoint [(0, 0, 2)] onto the plane [z = 0] the
    point [(2^1023, 0, 1)] is projected to [(inf, 0, 0)], [decompose] makes
    nans of it and [round] raises [ValueError]. *)
Lemma project_point_composition_counterexample :
  exists view,
    View.init (fl3 (0, 0, 2)%float)
      (Plane.mk (fl3 (0, 0, 1)%float) (PyFloat 0)) (fl3 (1, 0, 0)%float)
      = Ok view /\
    Plane.project_vector (View.plane view) (fl3 (0x1p+1023, 0, 1)%float)
      (View.point view) = Ok (fl3 (infinity, 0, 0)%float) /\
    decompose (fl3 (infinity, 0, 0)%float) (View.basis view)
      = Ok (PyFloat nan, PyFloat nan) /\
    View.project_point view (fl3 (0x1p+1023, 0, 1)%float) = Raise ValueError.
Proof.
  eexists. split; [vm_compute; reflexivity|].
  vm_compute. repeat split.
Qed.


(** * A float is determined by its value *)

Lemma Prim2SF_inj (x y : float) : Prim2SF x = Prim2SF y -> x = y.
Proof.
  intros H. rewrite <- (SF2Prim_Prim2SF x), <- (SF2Prim_Prim2SF y), H.
  reflexivity.
Qed.

Lemma digits2_pos_size (m : positive) : digits2_pos m = Pos.size m.
Proof. induction m; cbn; congruence. Qed.

(** [2^(d-1) <= m < 2^d] for the number [d] of binary digits of [m]. *)
Lemma digits2_pos_bounds (m : positive) :
  (2 ^ (Zpos (digits2_pos m) - 1) <= Zpos m < 2 ^ Zpos (digits2_pos m))%Z.
Proof.
  rewrite digits2_pos_size.
  pose proof (Pos.size_gt m) as Hgt. pose proof (Pos.size_le m) as Hle.
  apply Pos2Z.pos_lt_pos in Hgt. apply Pos2Z.pos_le_pos in Hle.
  rewrite Pos2Z.inj_pow in Hgt, Hle.
  replace (Zpos (Pos.size m)) with (Z.succ (Zpos (Pos.size m) - 1))%Z in Hle
    at 1 by lia.
  rewrite Z.pow_succ_r in Hle by lia.
  change (Zpos m~0) with (2 * Zpos m)%Z in Hle. lia.
Qed.

Lemma digits_unique (n d d' : Z) :
  (0 < d)%Z -> (0 < d')%Z ->
  (2 ^ (d - 1) <= n < 2 ^ d)%Z -> (2 ^ (d' - 1) <= n < 2 ^ d')%Z -> d = d'.
Proof.
  intros Hd Hd' [L U] [L' U'].
  destruct (Z.lt_trichotomy d d') as [H | [H | H]]; [|exact H|]; exfalso.
  - assert (2 ^ d <= 2 ^ (d' - 1))%Z by (apply Z.pow_le_mono_r; lia). lia.
  - assert (2 ^ d' <= 2 ^ (d - 1))%Z by (apply Z.pow_le_mono_r; lia). lia.
Qed.

(** The mantissa and the exponent of a float are those of no other. *)
Lemma canonical_unique (m1 m2 : positive) (e1 e2 : Z) :
  valid_binary (S754_finite false m1 e1) = true ->
  valid_binary (S754_finite false m2 e2) = true ->
  (e1 <= e2)%Z ->
  (Zpos m1 = Zpos m2 * 2 ^ (e2 - e1))%Z ->
  e1 = e2 /\ m1 = m2.
Proof.
  unfold valid_binary, bounded, canonical_mantissa, fexp.
  intros H1 H2 Hle Hm.
  apply andb_prop in H1, H2. destruct H1 as [H1 _], H2 as [H2 _].
  apply Z.eqb_eq in H1, H2.
  pose proof (digits2_pos_bounds m1) as B1.
  pose proof (digits2_pos_bounds m2) as B2.
  set (d1 := Zpos (digits2_pos m1)) in *.
  set (d2 := Zpos (digits2_pos m2)) in *.
  assert (Hd : d1 = (d2 + (e2 - e1))%Z).
  { apply (digits_unique (Zpos m1)).
    - unfold d1. lia.
    - unfold d2. lia.
    - exact B1.
    - rewrite Hm.
      replace (d2 + (e2 - e1) - 1)%Z with ((d2 - 1) + (e2 - e1))%Z by lia.
      rewrite !Z.pow_add_r by (unfold d2; lia).
      assert (0 < 2 ^ (e2 - e1))%Z by (apply Z.pow_pos_nonneg; lia).
      nia. }
  assert (He : e1 = e2) by lia.
  split; [exact He|]. subst e2. rewrite Z.sub_diag in Hm.
  change (2 ^ 0)%Z with 1%Z in Hm. lia.
Qed.

(** The value of a finite float, with a power of two as a rational. *)
Lemma SF2Q_finite (s : bool) (m : positive) (e : Z) :
  exists q,
    SF2Q (S754_finite s m e) = Some q /\
    (q == inject_Z (if s then Zneg m else Zpos m) * 2 ^ e)%Q.
Proof.
  eexists. split; [reflexivity|]. cbv beta zeta.
  set (n := if s then Zneg m else Zpos m).
  assert (H2 : forall p, (2 ^ Zpos p == inject_Z (Z.pow_pos 2 p))%Q).
  { intros p. symmetry. apply (Zpower_Qpower 2 (Zpos p)). lia. }
  destruct e as [|p|p].
  - change (2 ^ 0)%Q with 1%Q. unfold inject_Z. ring.
  - rewrite H2, <- inject_Z_mult. reflexivity.
  - change (Zneg p) with (- Zpos p)%Z. rewrite Qpower_opp, H2.
    rewrite <- Pos2Z.inj_pow_pos.
    unfold Qeq, Qmult, Qinv, inject_Z. simpl. lia.
Qed.

Lemma pow2_pos (e : Z) : (0 < 2 ^ e)%Q.
Proof. apply Qpower_0_lt. reflexivity. Qed.

Lemma pow2_nonzero (e : Z) : ~ (2 ^ e == 0)%Q.
Proof. intros H. pose proof (pow2_pos e) as P. rewrite H in P. discriminate. Qed.

Lemma pow2_split (e1 e2 : Z) : (2 ^ e2 == 2 ^ (e2 - e1) * 2 ^ e1)%Q.
Proof.
  rewrite <- Qpower_plus by discriminate.
  replace (e2 - e1 + e1)%Z with e2 by lia. reflexivity.
Qed.

Lemma mantissa_shift (m1 m2 : positive) (e1 e2 : Z) :
  (e1 <= e2)%Z ->
  (inject_Z (Zpos m1) * 2 ^ e1 == inject_Z (Zpos m2) * 2 ^ e2)%Q ->
  (Zpos m1 = Zpos m2 * 2 ^ (e2 - e1))%Z.
Proof.
  intros Hle H. rewrite (pow2_split e1 e2), Qmult_assoc in H.
  apply Qmult_inj_r in H; [|apply pow2_nonzero].
  change 2%Q with (inject_Z 2) in H.
  rewrite <- Zpower_Qpower, <- inject_Z_mult in H by lia.
  exact (proj1 (inject_Z_injective _ _) H).
Qed.

Lemma finite_same_value (s : bool) (m1 m2 : positive) (e1 e2 : Z) :
  valid_binary (S754_finite s m1 e1) = true ->
  valid_binary (S754_finite s m2 e2) = true ->
  (inject_Z (Zpos m1) * 2 ^ e1 == inject_Z (Zpos m2) * 2 ^ e2)%Q ->
  S754_finite s m1 e1 = S754_finite s m2 e2.
Proof.
  intros V1 V2 H.
  destruct (Z.le_ge_cases e1 e2) as [Hle | Hle].
  - destruct (canonical_unique m1 m2 e1 e2 V1 V2 Hle
                (mantissa_shift _ _ _ _ Hle H)) as [-> ->].
    reflexivity.
  - symmetry in H.
    destruct (canonical_unique m2 m1 e2 e1 V2 V1 Hle
                (mantissa_shift _ _ _ _ Hle H)) as [-> ->].
    reflexivity.
Qed.

(** Two floats with the same non-zero value are the same float. *)
Lemma SF2Q_inj (x y : spec_float) (qx qy : Q) :
  valid_binary x = true -> valid_binary y = true ->
  SF2Q x = Some qx -> SF2Q y = Some qy ->
  (qx == qy)%Q -> ~ (qx == 0)%Q -> x = y.
Proof.
  intros Vx Vy Ex Ey Heq Hnz.
  destruct x as [sx|sx| |sx mx ex]; try discriminate;
    [injection Ex as <-; exfalso; apply Hnz; reflexivity|].
  destruct y as [sy|sy| |sy my ey]; try discriminate;
    [injection Ey as <-; exfalso; apply Hnz; exact Heq|].
  destruct (SF2Q_finite sx mx ex) as (q1 & E1 & H1).
  destruct (SF2Q_finite sy my ey) as (q2 & E2 & H2).
  rewrite Ex in E1. injection E1 as <-.
  rewrite Ey in E2. injection E2 as <-.
  rewrite H1, H2 in Heq. clear Ex Ey H1 H2 Hnz.
  pose proof (pow2_pos ex) as P1. pose proof (pow2_pos ey) as P2.
  assert (Hpos : forall m e, (0 < inject_Z (Zpos m) * 2 ^ e)%Q).
  { intros m e. apply Qmult_lt_0_compat; [reflexivity|apply pow2_pos]. }
  assert (Hneg : forall m e,
             (inject_Z (Zneg m) * 2 ^ e == - (inject_Z (Zpos m) * 2 ^ e))%Q).
  { intros m e. change (Zneg m) with (- Zpos m)%Z.
    rewrite inject_Z_opp. ring. }
  destruct sx, sy.
  - apply finite_same_value; try assumption.
    rewrite !Hneg in Heq. apply Qopp_comp in Heq.
    rewrite !Qopp_involutive in Heq. exact Heq.
  - exfalso. rewrite Hneg in Heq.
    pose proof (Hpos mx ex) as A. pose proof (Hpos my ey) as B.
    rewrite <- Heq in B. apply Qopp_lt_compat in A.
    change (- 0)%Q with 0%Q in A.
    exact (Qlt_irrefl _ (Qlt_trans _ _ _ B A)).
  - exfalso. rewrite Hneg in Heq.
    pose proof (Hpos mx ex) as A. pose proof (Hpos my ey) as B.
    rewrite Heq in A. apply Qopp_lt_compat in B.
    change (- 0)%Q with 0%Q in B.
    exact (Qlt_irrefl _ (Qlt_trans _ _ _ A B)).
  - apply finite_same_value; assumption.
Qed.

(** A float with a non-zero value is the only float with that value. *)
Lemma float_value_inj (f g : float) (qf qg : Q) :
  value (PyFloat f) = Some qf -> value (PyFloat g) = Some qg ->
  (qf == qg)%Q -> ~ (qf == 0)%Q -> f = g.
Proof.
  cbn [value]. intros Ef Eg Heq Hnz. apply Prim2SF_inj.
  eapply SF2Q_inj; try eassumption; apply Prim2SF_valid.
Qed.

(** A non-zero float is the float of its value. *)
Lemma nonzero_float_eq (x y : num) (q : Q) :
  nonzero_float x -> is_float y ->
  has_value x q -> has_value y q -> y = x.
Proof.
  intros [Hx Hnz] Hy Hxq Hyq.
  destruct x as [|f]; [contradiction|]. destruct y as [|g]; [contradiction|].
  unfold has_value in *.
  destruct (value (PyFloat f)) as [qf|] eqn:Ef; [|contradiction].
  destruct (value (PyFloat g)) as [qg|] eqn:Eg; [|contradiction].
  f_equal. symmetry. eapply float_value_inj; try eassumption.
  rewrite Hxq, Hyq. reflexivity.
Qed.


(** * Exact runs *)

Lemma xbind_inv {A B : Type} (c : option A) (k : A -> option B) (r : B) :
  xbind c k = Some r -> exists a, c = Some a /\ k a = Some r.
Proof. destruct c as [a|]; [|discriminate]. intros H. exists a. auto. Qed.

Lemma checked_inv (op : num -> num -> result num) (opQ : Q -> Q -> Q)
    (a b : xnum) (r : num) :
  checked op opQ a b = Some r ->
  exists x y X Y R,
    a = Some x /\ b = Some y /\ op x y = Ok r /\
    value x = Some X /\ value y = Some Y /\ value r = Some R /\
    (R == opQ X Y)%Q.
Proof.
  unfold checked. destruct a as [x|]; [|discriminate].
  destruct b as [y|]; [|discriminate]. cbn [xbind].
  destruct (op x y) as [r'|] eqn:Eop; [|discriminate].
  destruct (value x) as [X|] eqn:EX; [|discriminate].
  destruct (value y) as [Y|] eqn:EY; [|discriminate].
  destruct (value r') as [R|] eqn:ER; [|discriminate].
  destruct (Qeq_bool R (opQ X Y)) eqn:E; [|discriminate].
  intros [= <-]. exists x, y, X, Y, R.
  repeat split; try assumption; try reflexivity. apply Qeq_bool_iff, E.
Qed.

Lemma checked_div_inv (a b : xnum) (r : num) :
  checked_div a b = Some r ->
  exists x y X Y R,
    a = Some x /\ b = Some y /\ truediv x y = Ok r /\
    value x = Some X /\ value y = Some Y /\ value r = Some R /\
    (R == X / Y)%Q /\ ~ (Y == 0)%Q.
Proof.
  unfold checked_div. destruct b as [y|] eqn:Eb; [|discriminate].
  cbn [xbind]. destruct (value y) as [Y|] eqn:EY; [|discriminate].
  destruct (Qeq_bool Y 0) eqn:E0; [discriminate|].
  intros H. apply checked_inv in H.
  destruct H as (x & y' & X & Y' & R & Hx & Hy & Hop & HX & HY & HR & Heq).
  injection Hy as <-. rewrite EY in HY. injection HY as <-.
  exists x, y, X, Y, R. repeat split; try assumption.
  apply Qeq_bool_neq, E0.
Qed.

Lemma checked_neg_inv (a : xnum) (r : num) :
  checked_neg a = Some r ->
  exists x X R,
    a = Some x /\ num_neg x = Ok r /\
    value x = Some X /\ value r = Some R /\ (R == - X)%Q.
Proof.
  unfold checked_neg. destruct a as [x|]; [|discriminate]. cbn [xbind].
  destruct (num_neg x) as [r'|] eqn:Eop; [|discriminate].
  destruct (value x) as [X|] eqn:EX; [|discriminate].
  destruct (value r') as [R|] eqn:ER; [|discriminate].
  destruct (Qeq_bool R (- X)) eqn:E; [|discriminate].
  intros [= <-]. exists x, X, R.
  repeat split; try assumption; try reflexivity. apply Qeq_bool_iff, E.
Qed.

(** Every operation of an exact run, taken apart. *)
Ltac inv_exact :=
  repeat match goal with
  | H : xbind _ _ = Some _ |- _ =>
      apply xbind_inv in H; destruct H as (? & ? & H)
  | H : checked_div _ _ = Some _ |- _ =>
      apply checked_div_inv in H;
      destruct H as (? & ? & ? & ? & ? & ? & ? & ? & ? & ? & ? & ? & ?)
  | H : checked_fsum2 _ _ = Some _ |- _ =>
      apply checked_inv in H; cbv beta in H;
      destruct H as (? & ? & ? & ? & ? & ? & ? & ? & ? & ? & ? & ?)
  | H : checked _ _ _ _ = Some _ |- _ =>
      apply checked_inv in H;
      destruct H as (? & ? & ? & ? & ? & ? & ? & ? & ? & ? & ? & ?)
  | H : checked_neg _ = Some _ |- _ =>
      apply checked_neg_inv in H;
      destruct H as (? & ? & ? & ? & ? & ? & ? & ?)
  | H : xret _ = Some _ |- _ => unfold xret in H
  | H : Some _ = Some _ |- _ => injection H as H; try subst
  end.

(** One exact value per number. *)
Ltac same_values :=
  repeat match goal with
  | H1 : value ?x = Some ?X, H2 : value ?x = Some ?Y |- _ =>
      rewrite H1 in H2; injection H2 as H2;
      first [subst Y | subst X | clear H2]
  end.

(** The code's run, once each of its operations is known to return. *)
Ltac run_ops :=
  unfold binop, unop, ret; cbn [bind fst snd];
  repeat (match goal with
          | H : ?e = Ok _ |- context [?e] => rewrite H
          end; cbn [bind fst snd]).

(** The exact values, written in the exact values of the operands. *)
Ltac qrewrite :=
  repeat match goal with
  | H : (?x == _)%Q |- context [?x] => is_var x; rewrite H
  end.

Ltac nonzero_from Hc :=
  match goal with
  | Hn : ~ (_ == 0)%Q |- _ => apply Hn; qrewrite; exact Hc
  end.

Lemma has_value_of (x : num) (X q : Q) :
  value x = Some X -> has_value x q <-> (X == q)%Q.
Proof. intros H. unfold has_value. rewrite H. reflexivity. Qed.

Lemma truediv_returns_float (x y r : num) :
  truediv x y = Ok r -> is_float r.
Proof.
  destruct x as [a|fa], y as [b|fb]; unfold truediv.
  - destruct (b =? 0)%Z; [discriminate|].
    destruct (int_truediv a b); cbn [bind]; [|discriminate].
    intros [= <-]. exact I.
  - destruct (as_float (PyInt a)); cbn [bind as_float]; [|discriminate].
    destruct (PrimFloat.eqb fb zero); [discriminate|].
    intros [= <-]. exact I.
  - cbn [bind as_float].
    destruct (float_of_int b); cbn [bind]; [|discriminate].
    destruct (PrimFloat.eqb a zero); [discriminate|].
    intros [= <-]. exact I.
  - cbn [bind as_float].
    destruct (PrimFloat.eqb fb zero); [discriminate|].
    intros [= <-]. exact I.
Qed.

Lemma decompose_exact_sound (v a b : Vector3f) (r : Vector2f) :
  decompose_exact v (a, b) = Some r ->
  decompose v (a, b) = Ok r /\
  (is_float (fst r) /\ is_float (snd r)) /\
  exists V0 V1 A0 A1 B0 B1 N M,
    value (get0 v) = Some V0 /\ value (get1 v) = Some V1 /\
    value (get0 a) = Some A0 /\ value (get1 a) = Some A1 /\
    value (get0 b) = Some B0 /\ value (get1 b) = Some B1 /\
    value (fst r) = Some N /\ value (snd r) = Some M /\
    ~ (B0 * A1 - B1 * A0 == 0)%Q /\ ~ (A0 == 0)%Q /\
    (N == (V0 * A1 - V1 * A0) / (B0 * A1 - B1 * A0))%Q /\
    (M == (V0 - N * B0) / A0)%Q.
Proof.
  unfold decompose_exact. cbn [fst snd]. intros H.
  inv_exact. same_values.
  split; [|split].
  - unfold decompose. run_ops. reflexivity.
  - cbn [fst snd]. split; eapply truediv_returns_float; eassumption.
  - do 8 eexists. repeat (split; [eassumption|]).
    cbn [fst snd].
    split; [intros Hc; nonzero_from Hc|].
    split; [assumption|].
    split; qrewrite; reflexivity.
Qed.

(** C1.  The round trip, where it holds: when the x and y components of
    [v] are exactly those of [n*a + m*b] and the run of [decompose] is
    exact (no operation raises or rounds, neither divisor is zero), the
    code returns a pair whose values are [m] and [n], in this order. *)
Theorem decompose_roundtrip_swapped (v a b : Vector3f)
    (A0 A1 B0 B1 n m : Q) (r : Vector2f) :
  has_value (get0 a) A0 -> has_value (get1 a) A1 ->
  has_value (get0 b) B0 -> has_value (get1 b) B1 ->
  has_value (get0 v) (n * A0 + m * B0) ->
  has_value (get1 v) (n * A1 + m * B1) ->
  decompose_exact v (a, b) = Some r ->
  decompose v (a, b) = Ok r /\ has_value (fst r) m /\ has_value (snd r) n.
Proof.
  intros Ha0 Ha1 Hb0 Hb1 Hv0 Hv1 H.
  destruct (decompose_exact_sound v a b r H)
    as (Hrun & Hfl & V0 & V1 & A0' & A1' & B0' & B1' & N & M
        & EV0 & EV1 & EA0 & EA1 & EB0 & EB1 & EN & EM
        & Hdet & Hax & HN & HM).
  apply (has_value_of _ _ _ EA0) in Ha0.
  apply (has_value_of _ _ _ EA1) in Ha1.
  apply (has_value_of _ _ _ EB0) in Hb0.
  apply (has_value_of _ _ _ EB1) in Hb1.
  apply (has_value_of _ _ _ EV0) in Hv0.
  apply (has_value_of _ _ _ EV1) in Hv1.
  rewrite Ha0, Ha1, Hb0, Hb1 in *.
  assert (HNm : (N == m)%Q) by (rewrite HN, Hv0, Hv1; field; exact Hdet).
  split; [exact Hrun|]. split.
  - apply (has_value_of _ _ _ EN). exact HNm.
  - apply (has_value_of _ _ _ EM). rewrite HM, HNm, Hv0. field. exact Hax.
Qed.

Lemma decompose_roundtrip_swapped_witness :
  decompose (fl3 (-1, -2, -15)%float)
            (fl3 (2, 1, 0)%float, fl3 (3, 2, 5)%float)
    = Ok (PyFloat (-3), PyFloat 4) /\
  has_value (fst (PyFloat (-3), PyFloat 4)) (-3) /\
  has_value (snd (PyFloat (-3), PyFloat 4)) 4.
Proof.
  apply (decompose_roundtrip_swapped
           (fl3 (-1, -2, -15)%float) (fl3 (2, 1, 0)%float)
           (fl3 (3, 2, 5)%float) 2 1 3 2 4 (-3) (PyFloat (-3), PyFloat 4));
    vm_compute; reflexivity.
Defined.

(** C1, the claim as stated fails: [decompose(1*a + 2*b, (a, b))] with
    [a = (1, 0, 0)] and [b = (0, 1, 0)] returns [(2, 1)], not [(1, 2)];
    and on floats the scalars are in general not recovered exactly: with
    [a = (1, 0, 0)], [b = (1, 1, 0)], [n = 1] and [m = 1e17] the code
    forms [v = (1e17, 1e17, 0)] and returns [(1e17, 0)]. *)
Lemma decompose_roundtrip_counterexample :
  (exists v,
     lincomb (PyInt 1) (int3 (1, 0, 0)%Z) (PyInt 2) (int3 (0, 1, 0)%Z) = Ok v /\
     decompose v (int3 (1, 0, 0)%Z, int3 (0, 1, 0)%Z)
       = Ok (PyFloat 2, PyFloat 1)) /\
  (exists v,
     lincomb (PyFloat 1) (fl3 (1, 0, 0)%float)
       (PyFloat 0x1.6345785d8ap+56) (fl3 (1, 1, 0)%float) = Ok v /\
     decompose v (fl3 (1, 0, 0)%float, fl3 (1, 1, 0)%float)
       = Ok (PyFloat 0x1.6345785d8ap+56, PyFloat 0)).
Proof.
  split; eexists; (split; [vm_compute; reflexivity|]); vm_compute; reflexivity.
Qed.

Lemma lincomb_exact_sound (n : num) (a : Vector3f) (m : num) (b v : Vector3f) :
  lincomb_exact n a m b = Some v ->
  lincomb n a m b = Ok v /\
  exists qn qm A0 A1 B0 B1 V0 V1,
    value n = Some qn /\ value m = Some qm /\
    value (get0 a) = Some A0 /\ value (get1 a) = Some A1 /\
    value (get0 b) = Some B0 /\ value (get1 b) = Some B1 /\
    value (get0 v) = Some V0 /\ value (get1 v) = Some V1 /\
    (V0 == A0 * qn + B0 * qm)%Q /\ (V1 == A1 * qn + B1 * qm)%Q.
Proof.
  unfold lincomb_exact, mult_vec_exact, sum_vec2_exact. intros H.
  inv_exact. cbn [get0 get1 get2 fst snd] in *. same_values.
  split.
  - unfold lincomb, mult_vec. run_ops. rewrite sum_vec_pair.
    cbn [get0 get1 get2 fst snd]. run_ops. reflexivity.
  - do 8 eexists. cbn [get0 get1 get2 fst snd].
    repeat (split; [eassumption|]).
    split; qrewrite; reflexivity.
Qed.

(** C10.  The order of the coefficients: when [v] is formed by the code
    as [alpha*a + beta*b] without rounding and the run of [decompose] on
    it is exact (so that [b.x*a.y - b.y*a.x] and [a.x] are not zero), the
    code returns a pair whose first component has the value of [beta] and
    whose second has the value of [alpha]; for non-zero floats [alpha] and
    [beta] it is the pair [(beta, alpha)] itself. *)
Theorem decompose_coefficient_order (a b : Vector3f) (alpha beta : num)
    (v : Vector3f) (r : Vector2f) :
  lincomb_exact alpha a beta b = Some v ->
  decompose_exact v (a, b) = Some r ->
  lincomb alpha a beta b = Ok v /\
  decompose v (a, b) = Ok r /\
  (exists qa qb,
     value alpha = Some qa /\ value beta = Some qb /\
     has_value (fst r) qb /\ has_value (snd r) qa) /\
  (nonzero_float alpha -> nonzero_float beta -> r = (beta, alpha)).
Proof.
  intros Hl Hd.
  destruct (lincomb_exact_sound _ _ _ _ _ Hl)
    as (Hlrun & qa & qb & A0 & A1 & B0 & B1 & V0 & V1
        & Eqa & Eqb & EA0 & EA1 & EB0 & EB1 & EV0 & EV1 & HV0 & HV1).
  destruct (decompose_exact_sound v a b r Hd)
    as (Hrun & (Hf1 & Hf2) & V0' & V1' & A0' & A1' & B0' & B1' & N & M
        & EV0' & EV1' & EA0' & EA1' & EB0' & EB1' & EN & EM
        & Hdet & Hax & HN & HM).
  same_values.
  split; [exact Hlrun|]. split; [exact Hrun|].
  assert (HNb : (N == qb)%Q) by (rewrite HN, HV0, HV1; field; exact Hdet).
  assert (HMa : (M == qa)%Q) by (rewrite HM, HNb, HV0; field; exact Hax).
  assert (Hb : has_value (fst r) qb) by (apply (has_value_of _ _ _ EN), HNb).
  assert (Ha : has_value (snd r) qa) by (apply (has_value_of _ _ _ EM), HMa).
  split.
  - exists qa, qb. repeat split; assumption.
  - intros Na Nb. destruct r as [r1 r2]. cbn [fst snd] in *. f_equal.
    + apply (nonzero_float_eq beta r1 qb); try assumption.
      apply (has_value_of _ _ _ Eqb). reflexivity.
    + apply (nonzero_float_eq alpha r2 qa); try assumption.
      apply (has_value_of _ _ _ Eqa). reflexivity.
Qed.

Lemma decompose_coefficient_order_witness :
  lincomb (PyFloat 3) (fl3 (2, 1, 0)%float)
          (PyFloat 0.5) (fl3 (1, 4, 7)%float)
    = Ok (fl3 (6.5, 5, 3.5)%float) /\
  decompose (fl3 (6.5, 5, 3.5)%float)
            (fl3 (2, 1, 0)%float, fl3 (1, 4, 7)%float)
    = Ok (PyFloat 0.5, PyFloat 3) /\
  (exists qa qb,
     value (PyFloat 3) = Some qa /\ value (PyFloat 0.5) = Some qb /\
     has_value (fst (PyFloat 0.5, PyFloat 3)) qb /\
     has_value (snd (PyFloat 0.5, PyFloat 3)) qa) /\
  (nonzero_float (PyFloat 3) -> nonzero_float (PyFloat 0.5) ->
   (PyFloat 0.5, PyFloat 3) = (PyFloat 0.5, PyFloat 3)).
Proof.
  apply decompose_coefficient_order; vm_compute; reflexivity.
Defined.

(** C10, the claim as stated fails on floats: with [a = (1, 0, 0)],
    [b = (1, 1, 0)], [alpha = 1] and [beta = 1e17] the first division
    gives [beta], but the second, [(v.x - beta*b.x) / a.x], gives [0], not
    [alpha]: forming [v.x = 1 + 1e17] has rounded the [1] away. *)
Lemma decompose_coefficient_order_counterexample :
  exists v,
    lincomb (PyFloat 1) (fl3 (1, 0, 0)%float)
      (PyFloat 0x1.6345785d8ap+56) (fl3 (1, 1, 0)%float) = Ok v /\
    xy_det (fl3 (1, 0, 0)%float) (fl3 (1, 1, 0)%float) = Ok (PyFloat (-1)) /\
    decompose v (fl3 (1, 0, 0)%float, fl3 (1, 1, 0)%float)
      = Ok (PyFloat 0x1.6345785d8ap+56, PyFloat 0).
Proof.
  eexists. split; [vm_compute; reflexivity|].
  split; vm_compute; reflexivity.
Qed.


(** * Plane.project_vector, exact *)

(** The exact values of the operands of an exact run of
    [project_vector], and of its result. *)
Lemma project_vector_exact_sound (self : Plane.t) (P V X : Vector3f) :
  project_vector_exact self P V = Some X ->
  Plane.project_vector self P V = Ok X /\
  exists (n p v x : Vector3 Q) (d : Q),
    values (Plane.normal self) = Some n /\
    value (Plane.intercept self) = Some d /\
    values P = Some p /\ values V = Some v /\ values X = Some x /\
    ~ (Qdot n (Qvsub p v) == 0)%Q /\
    on_line p v x (- (Qdot n p + d) / Qdot n (Qvsub p v)).
Proof.
  unfold project_vector_exact. intros H.
  inv_exact. same_values.
  split.
  - unfold Plane.project_vector. run_ops. reflexivity.
  - do 5 eexists. unfold values. cbn [get0 get1 get2 fst snd].
    repeat match goal with
    | H : value ?t = Some _ |- context [value ?t] => rewrite H
    end.
    do 5 (split; [reflexivity|]).
    unfold on_line, Qdot, Qvsub. cbn [get0 get1 get2 fst snd].
    split; [intros Hc; nonzero_from Hc|].
    repeat split; qrewrite; reflexivity.
Qed.

Lemma on_line_on_plane (n p v x : Vector3 Q) (d : Q) :
  ~ (Qdot n (Qvsub p v) == 0)%Q ->
  on_line p v x (- (Qdot n p + d) / Qdot n (Qvsub p v)) ->
  on_plane n d x.
Proof.
  destruct n as [[A B] C], p as [[p0 p1] p2], v as [[v0 v1] v2],
    x as [[x0 x1] x2].
  unfold on_line, on_plane, Qdot, Qvsub. cbn [get0 get1 get2 fst snd].
  intros Hden (H0 & H1 & H2). rewrite H0, H1, H2. field. exact Hden.
Qed.

Lemma on_line_on_plane_unique (n p v y : Vector3 Q) (d t : Q) :
  ~ (Qdot n (Qvsub p v) == 0)%Q ->
  on_line p v y t -> on_plane n d y ->
  (t == - (Qdot n p + d) / Qdot n (Qvsub p v))%Q.
Proof.
  destruct n as [[A B] C], p as [[p0 p1] p2], v as [[v0 v1] v2],
    y as [[y0 y1] y2].
  unfold on_line, on_plane, Qdot, Qvsub. cbn [get0 get1 get2 fst snd].
  intros Hden (H0 & H1 & H2) Hpl. rewrite H0, H1, H2 in Hpl.
  set (den := (A * (p0 - v0) + B * (p1 - v1) + C * (p2 - v2))%Q) in *.
  assert (Ht : (t * den == - (A * p0 + B * p1 + C * p2 + d))%Q).
  { unfold den.
    apply (Qplus_inj_r _ _ (A * p0 + B * p1 + C * p2 + d)).
    transitivity 0%Q; [|ring].
    etransitivity; [|exact Hpl]. ring. }
  rewrite <- Ht. field. exact Hden.
Qed.

(** C2.  When the run of [project_vector(P, V)] is exact (no operation
    raises or rounds; in particular [normal . (P - V)] is not zero), the
    returned point [X] is the unique intersection of the line through [V]
    and [P] with the plane: [normal . X + intercept = 0],
    [X = P + t (P - V)] for a scalar [t], and every point of the line that
    is on the plane is [X]. *)
Theorem project_vector_intersection (self : Plane.t) (P V X : Vector3f) :
  project_vector_exact self P V = Some X ->
  Plane.project_vector self P V = Ok X /\
  exists (n p v x : Vector3 Q) (d : Q),
    values (Plane.normal self) = Some n /\
    value (Plane.intercept self) = Some d /\
    values P = Some p /\ values V = Some v /\ values X = Some x /\
    ~ (Qdot n (Qvsub p v) == 0)%Q /\
    on_plane n d x /\
    (exists t, on_line p v x t) /\
    (forall y t, on_line p v y t -> on_plane n d y -> Qveq y x).
Proof.
  intros H.
  destruct (project_vector_exact_sound self P V X H)
    as (Hrun & n & p & v & x & d & En & Ed & Ep & Ev & Ex & Hden & Hline).
  split; [exact Hrun|].
  exists n, p, v, x, d. do 5 (split; [assumption|]).
  split; [exact Hden|].
  split; [eapply on_line_on_plane; eassumption|].
  split; [eexists; exact Hline|].
  intros y t Hy Hpl.
  pose proof (on_line_on_plane_unique n p v y d t Hden Hy Hpl) as Ht.
  destruct Hy as (Hy0 & Hy1 & Hy2), Hline as (Hx0 & Hx1 & Hx2).
  unfold Qveq. rewrite Hy0, Hy1, Hy2, Hx0, Hx1, Hx2, Ht.
  repeat split; reflexivity.
Qed.

Lemma project_vector_intersection_witness :
  Plane.project_vector (Plane.mk (int3 (2, 2, 1)%Z) (PyInt 4))
    (fl3 (1, 2, 3)%float) (fl3 (0, 1, -1)%float)
    = Ok (fl3 (-0.625, 0.375, -3.5)%float) /\
  exists (n p v x : Vector3 Q) (d : Q),
    values (Plane.normal (Plane.mk (int3 (2, 2, 1)%Z) (PyInt 4))) = Some n /\
    value (Plane.intercept (Plane.mk (int3 (2, 2, 1)%Z) (PyInt 4))) = Some d /\
    values (fl3 (1, 2, 3)%float) = Some p /\
    values (fl3 (0, 1, -1)%float) = Some v /\
    values (fl3 (-0.625, 0.375, -3.5)%float) = Some x /\
    ~ (Qdot n (Qvsub p v) == 0)%Q /\
    on_plane n d x /\
    (exists t, on_line p v x t) /\
    (forall y t, on_line p v y t -> on_plane n d y -> Qveq y x).
Proof.
  apply project_vector_intersection. vm_compute. reflexivity.
Defined.

(** C2, the claim as stated fails on floats: for the plane [3x - 1 = 0],
    [P = (1, 0, 0)] and [V] the origin, [normal . (P - V)] is [3], but the
    returned point [(0.33333333333333337, 0, 0)] is not on the plane; no
    float is, [1/3] having no exact value. *)
Lemma project_vector_intersection_counterexample :
  let pl := Plane.mk (fl3 (3, 0, 0)%float) (PyFloat (-1)) in
  let P := fl3 (1, 0, 0)%float in
  let V := fl3 (0, 0, 0)%float in
  let X := fl3 (0x1.5555555555556p-2, 0, 0)%float in
  match ray_divisor_value pl P V with
  | Some q => ~ (q == 0)%Q
  | None => False
  end /\
  Plane.project_vector pl P V = Ok X /\
  match values (Plane.normal pl), value (Plane.intercept pl), values X with
  | Some n, Some d, Some x => ~ on_plane n d x
  | _, _, _ => False
  end.
Proof.
  vm_compute. repeat split; discriminate.
Qed.


(** * Plane.get_vectors *)

(** C3.  On the plane [z = 4] (normal [(0, 0, 1)], intercept [-4]) with
    the hint [(3, 0, 0)], which is not parallel to the normal,
    [get_vectors] returns [q = (0.6, 0, 0.8)] and [r = (0, 1, 0)]: [q] is
    the normalised foot [(3, 0, 4)] of the hint on the plane, a point of
    the plane and not a direction in it, and [normal . q] is [0.8], far
    from zero. *)
Theorem get_vectors_offset_plane :
  let pl := Plane.mk (int3 (0, 0, 1)%Z) (PyInt (-4)) in
  let q := fl3 (0x1.3333333333333p-1, 0, 0x1.999999999999ap-1)%float in
  let r := fl3 (0, 1, 0)%float in
  Plane.project_through pl (int3 (3, 0, 0)%Z) = Ok (fl3 (3, 0, 4)%float) /\
  Plane.get_vectors pl (int3 (3, 0, 0)%Z) = Ok (q, r) /\
  match values (Plane.normal pl), values q with
  | Some n, Some x => (4 # 5 <= Qdot n x)%Q
  | _, _ => False
  end.
Proof.
  vm_compute. repeat split. discriminate.
Qed.

(** * View.move_point undone *)

Lemma move_point_fields (self self' : View.t) (v : Vector3f) :
  View.move_point self v = Ok self' ->
  View.plane self' = View.plane self /\ View.basis self' = View.basis self.
Proof.
  intros H. pose proof (move_point_cases self v) as Hc. rewrite H in Hc.
  destruct Hc as (x & y & z & -> & _). split; reflexivity.
Qed.









Lemma move_point_raises (self : View.t) (v : Vector3f) :
  raises_only [ValueError; OverflowError] (View.move_point self v).
Proof.
  intros e H. pose proof (move_point_cases self v) as Hc. rewrite H in Hc.
  exact (sum_vec_raises _ _ Hc).
Qed.

(** X1.  [sum_vec] of the empty list is the empty tuple; of a list of two
    vectors it is the tuple of the three [math.fsum]s of the components,
    three floats; and it raises nothing but the [ValueError] and the
    [OverflowError] of [math.fsum]. *)
Theorem sum_vec_shape :
  sum_vec [] = Ok [] /\
  (forall u v s,
     sum_vec [u; v] = Ok s ->
     exists x y z,
       s = [x; y; z] /\
       fsum [get0 u; get0 v] = Ok x /\
       fsum [get1 u; get1 v] = Ok y /\
       fsum [get2 u; get2 v] = Ok z /\
       is_float x /\ is_float y /\ is_float z) /\
  (forall l, raises_only [ValueError; OverflowError] (sum_vec l)).
Proof.
  split; [reflexivity|]. split; [|exact sum_vec_raises].
  intros u v s H.
  destruct (sum_vec_pair_items u v s H) as (x & y & z & -> & Hx & Hy & Hz).
  exists x, y, z. repeat split; try assumption;
    eapply fsum_returns_float; eassumption.
Qed.

(** * View.project_point and View.project_points *)

Lemma decompose_raises (v : Vector3f) (basis : Vector3f * Vector3f) :
  raises_only [OverflowError] (decompose v basis).
Proof.
  intros e. unfold decompose.
  match goal with
  | |- try_except_ZeroDivisionError ?body _ = _ -> _ =>
      assert (Hb : raises_only [ZeroDivisionError; OverflowError] body)
        by raises_only_expr;
      destruct body as [r|e'] eqn:E
  end; cbn [try_except_ZeroDivisionError]; [discriminate|].
  destruct (Hb e' eq_refl) as [<- | [<- | []]]; [discriminate|].
  intros [= <-]. simpl. auto.
Qed.

Lemma py_round_raises (x : num) :
  raises_only [ValueError; OverflowError] (py_round x).
Proof.
  intros e. destruct x as [z|f]; [discriminate|]. unfold py_round.
  destruct (Prim2SF f); try discriminate; intros [= <-]; simpl; auto.
Qed.

(** X19.  [project_point(p)] raises [ZeroDivisionError] exactly when
    [project_vector] does, the one of [decompose] being caught there; the
    other exceptions it can raise are [ValueError] (the [round] of a nan)
    and [OverflowError]. *)
Theorem project_point_raises_iff (self : View.t) (p : Vector3f) :
  (View.project_point self p = Raise ZeroDivisionError <->
   Plane.project_vector (View.plane self) p (View.point self)
     = Raise ZeroDivisionError) /\
  raises_only [ZeroDivisionError; ValueError; OverflowError]
    (View.project_point self p).
Proof.
  unfold View.project_point.
  pose proof (project_vector_raises_only (View.plane self) p (View.point self))
    as HX.
  destruct (Plane.project_vector _ _ _) as [X|e]; cbn [bind].
  - pose proof (decompose_raises X (View.basis self)) as Hd.
    destruct (decompose X (View.basis self)) as [nm|e]; cbn [bind].
    + pose proof (py_round_raises (fst nm)) as Hi.
      destruct (py_round (fst nm)) as [i|e]; cbn [bind].
      * pose proof (py_round_raises (snd nm)) as Hj.
        destruct (py_round (snd nm)) as [j|e]; cbn [bind].
        -- split; [split; discriminate|]. intros e; discriminate.
        -- destruct (Hj e eq_refl) as [<- | [<- | []]];
             (split; [split; discriminate|]);
             intros e [= <-]; simpl; auto.
      * destruct (Hi e eq_refl) as [<- | [<- | []]];
          (split; [split; discriminate|]);
          intros e [= <-]; simpl; auto.
    + destruct (Hd e eq_refl) as [<- | []].
      split; [split; discriminate|]. intros e [= <-]; simpl; auto.
  - split; [split; intros [= ->]; reflexivity|].
    destruct (HX e eq_refl) as [<- | [<- | []]]; intros e' [= <-];
      simpl; auto.
Qed.

(** X21.  [project_points] maps [project_point] over the list in order:
    it returns a list exactly when every point has a projection, and that
    list pairs off with the points, so it has their number. *)
Theorem project_points_pointwise
    (self : View.t) (points : list Vector3f) (pixels : list (Vector2 Z)) :
  (View.project_points self points = Ok pixels <->
   Forall2 (fun p c => View.project_point self p = Ok c) points pixels) /\
  (View.project_points self points = Ok pixels ->
   length pixels = length points).
Proof.
  assert (H : forall ps cs,
             View.project_points self ps = Ok cs <->
             Forall2 (fun p c => View.project_point self p = Ok c) ps cs).
  { induction ps as [| p ps IH]; intros cs; cbn [View.project_points].
    - split.
      + intros E. injection E as <-. constructor.
      + intros F. inversion F. reflexivity.
    - destruct (View.project_point self p) as [c | e] eqn:Ep; cbn [bind].
      + destruct (View.project_points self ps) as [cs' | e] eqn:Eps; cbn [bind].
        * split.
          -- intros E. injection E as <-. constructor; [exact Ep |].
             now apply IH.
          -- intros F. inversion F as [| p0 c0 ps0 cs0 Hc Hcs]; subst.
             rewrite Ep in Hc. injection Hc as <-.
             apply IH in Hcs. injection Hcs as <-. reflexivity.
        * split; [discriminate |].
          intros F. inversion F as [| p0 c0 ps0 cs0 Hc Hcs]; subst.
          apply IH in Hcs. discriminate Hcs.
      + split; [discriminate |].
        intros F. inversion F as [| p0 c0 ps0 cs0 Hc Hcs]; subst.
        rewrite Ep in Hc. discriminate Hc. }
  split; [apply H |].
  intros E. apply H in E. symmetry. exact (Forall2_length E).
Qed.

(** X22.  [project_points] raises [e] exactly when some point of the list
    makes [project_point] raise [e] and every point before it has a
    projection: the exception is that of the first point that fails. *)
Theorem project_points_raises_iff
    (self : View.t) (points : list Vector3f) (e : exn) :
  View.project_points self points = Raise e <->
  exists before p after,
    points = before ++ p :: after /\
    Forall (fun q => exists c, View.project_point self q = Ok c) before /\
    View.project_point self p = Raise e.
Proof.
  induction points as [|p ps IH]; cbn [View.project_points].
  - split; [discriminate|]. intros (before & q & after & H & _).
    destruct before; discriminate H.
  - destruct (View.project_point self p) as [c|e'] eqn:Ep; cbn [bind].
    + destruct (View.project_points self ps) as [cs|e''] eqn:Eps;
        cbn [bind].
      * split; [discriminate|].
        intros (before & q & after & H & Hall & Hq).
        destruct before as [|b before]; cbn [app] in H;
          injection H as -> ->.
        -- rewrite Ep in Hq. discriminate.
        -- inversion Hall as [|? ? _ Hall']; subst.
           assert (Ok cs = @Raise (list (Vector2 Z)) e) as Habs
             by (apply IH; exists before, q, after; auto).
           discriminate Habs.
      * split.
        -- intros [= <-].
           destruct (proj1 IH eq_refl)
             as (before & q & after & -> & Hall & Hq).
           exists (p :: before), q, after. repeat split; auto.
           constructor; [eexists; exact Ep | exact Hall].
        -- intros (before & q & after & H & Hall & Hq).
           destruct before as [|b before]; cbn [app] in H;
             injection H as -> ->.
           ++ rewrite Ep in Hq. discriminate.
           ++ inversion Hall as [|? ? _ Hall']; subst.
              apply IH. exists before, q, after. auto.
    + split.
      * intros [= <-]. exists [], p, ps. repeat split; auto.
      * intros (before & q & after & H & Hall & Hq).
        destruct before as [|b before]; cbn [app] in H;
          injection H as -> ->.
        -- rewrite Ep in Hq. injection Hq as ->. reflexivity.
        -- inversion Hall as [|? ? [c Hc] _]; subst.
           rewrite Ep in Hc. discriminate.
Qed.


(** X30.  When the run of [decompose] is exact, the pair [(n, m)] it
    returns solves the two equations of the x and y components:
    [v.x = m*a.x + n*b.x] and [v.y = m*a.y + n*b.y]. *)
Theorem decompose_solves_xy (v a b : Vector3f) (r : Vector2f) :
  decompose_exact v (a, b) = Some r ->
  decompose v (a, b) = Ok r /\
  exists V0 V1 A0 A1 B0 B1 N M,
    value (get0 v) = Some V0 /\ value (get1 v) = Some V1 /\
    value (get0 a) = Some A0 /\ value (get1 a) = Some A1 /\
    value (get0 b) = Some B0 /\ value (get1 b) = Some B1 /\
    value (fst r) = Some N /\ value (snd r) = Some M /\
    (V0 == M * A0 + N * B0)%Q /\ (V1 == M * A1 + N * B1)%Q.
Proof.
  intros H.
  destruct (decompose_exact_sound v a b r H)
    as (Hrun & _ & V0 & V1 & A0 & A1 & B0 & B1 & N & M
        & EV0 & EV1 & EA0 & EA1 & EB0 & EB1 & EN & EM
        & Hdet & Hax & HN & HM).
  split; [exact Hrun|].
  exists V0, V1, A0, A1, B0, B1, N, M.
  repeat (split; [assumption|]).
  split.
  - rewrite HM. field. exact Hax.
  - rewrite HM, HN. field. split; assumption.
Qed.

Lemma decompose_solves_xy_witness :
  decompose (fl3 (5, 7, 9)%float) (fl3 (2, 1, 0)%float, fl3 (3, 2, 7)%float)
    = Ok (PyFloat 9, PyFloat (-11))
  /\
  exists V0 V1 A0 A1 B0 B1 N M,
    value (get0 (fl3 (5, 7, 9)%float)) = Some V0 /\
    value (get1 (fl3 (5, 7, 9)%float)) = Some V1 /\
    value (get0 (fl3 (2, 1, 0)%float)) = Some A0 /\
    value (get1 (fl3 (2, 1, 0)%float)) = Some A1 /\
    value (get0 (fl3 (3, 2, 7)%float)) = Some B0 /\
    value (get1 (fl3 (3, 2, 7)%float)) = Some B1 /\
    value (fst (PyFloat 9, PyFloat (-11))) = Some N /\
    value (snd (PyFloat 9, PyFloat (-11))) = Some M /\
    (V0 == M * A0 + N * B0)%Q /\ (V1 == M * A1 + N * B1)%Q.
Proof.
  apply decompose_solves_xy. vm_compute. reflexivity.
Defined.

(** * adjust_view_point *)

Lemma move_point_keeps_frame (self : View.t) (v : Vector3f) :
  match View.move_point self v with
  | Ok self' =>
      View.plane self' = View.plane self /\
      View.basis self' = View.basis self
  | Raise e => In e [ValueError; OverflowError]
  end.
Proof.
  destruct (View.move_point self v) as [self'|e] eqn:E.
  - eapply move_point_fields, E.
  - eapply move_point_raises, E.
Qed.

Lemma not_control_key (pygame : pygame_keys) (key : Z) :
  existsb (Z.eqb key) (view_control_keys pygame) = false ->
  adjust_view_point pygame key = fun view => Ok view.
Proof.
  unfold view_control_keys, adjust_view_point. cbn [existsb].
  destruct (key =? K_LEFT pygame)%Z; [discriminate |].
  destruct (key =? K_RIGHT pygame)%Z; [discriminate |].
  destruct (key =? K_UP pygame)%Z; [discriminate |].
  destruct (key =? K_DOWN pygame)%Z; [discriminate |].
  destruct (key =? K_q pygame)%Z; [discriminate |].
  destruct (key =? K_e pygame)%Z; [discriminate |].
  reflexivity.
Qed.

(** X24.  Whatever the key, [adjust_view_point] leaves the plane and the
    cached basis of the view alone, or raises the [ValueError] or
    [OverflowError] of the sum and assigns nothing; and for a key that is
    none of the six control keys it leaves the whole view as it is. *)
Theorem adjust_view_point_frame
    (pygame : pygame_keys) (key : Z) (view : View.t) :
  match adjust_view_point pygame key view with
  | Ok view' =>
      View.plane view' = View.plane view /\
      View.basis view' = View.basis view
  | Raise e => In e [ValueError; OverflowError]
  end /\
  (~ In key (view_control_keys pygame) ->
   adjust_view_point pygame key view = Ok view).
Proof.
  split.
  - unfold adjust_view_point.
    repeat match goal with
           | |- context [if ?b then _ else _] => destruct b
           end; try apply move_point_keeps_frame.
    split; reflexivity.
  - intros Hk. rewrite not_control_key; [reflexivity |].
    destruct (existsb (Z.eqb key) (view_control_keys pygame)) eqn:E;
      [| reflexivity].
    exfalso. apply Hk. apply existsb_exists in E. destruct E as (k & Hin & Hk').
    apply Z.eqb_eq in Hk'. now subst k.
Qed.

(** * KeyboardEventHandler *)

Section HandlerFacts.

Variables Handler Kwargs : Type.

(** The dict entry of [key] after [add_group_handler]. *)
Lemma find_add_group_handler (group : list Z)
    (self : KeyboardEventHandler.t Handler Kwargs)
    (handler : Handler) (kwargs_dict : Kwargs) (key : Z) :
  KeyMap.find key
    (KeyboardEventHandler.key_event_map
       (KeyboardEventHandler.add_group_handler self group handler kwargs_dict))
  = if existsb (Z.eqb key) group then Some (handler, kwargs_dict)
    else KeyMap.find key (KeyboardEventHandler.key_event_map self).
Proof.
  unfold KeyboardEventHandler.add_group_handler.
  revert self. induction group as [| k group IH]; intros self;
    cbn [fold_left existsb]; [reflexivity |].
  rewrite IH. destruct (existsb (Z.eqb key) group).
  - now rewrite orb_true_r.
  - rewrite orb_false_r.
    unfold KeyboardEventHandler.add_handler.
    cbn [KeyboardEventHandler.key_event_map].
    destruct (Z.eqb_spec key k) as [-> | N].
    + now apply KeyMapFacts.add_eq_o.
    + apply KeyMapFacts.add_neq_o. intros E. apply N. symmetry. exact E.
Qed.

Lemma existsb_eqb_In (key : Z) (group : list Z) :
  existsb (Z.eqb key) group = true <-> In key group.
Proof.
  rewrite existsb_exists. split.
  - intros (k & Hin & E). apply Z.eqb_eq in E. now subst k.
  - intros Hin. exists key. split; [exact Hin | apply Z.eqb_refl].
Qed.

(** X26.  After [add_group_handler(group, handler, kwargs_dict)] the keys
    that have a handler are the keys of the group and the keys that had
    one before; [get_handler] of a key of the group gives the closure of
    the new handler, that key and the new keywords, replacing what was
    registered for it, and [get_handler] of any other key is what it was.
    A new [KeyboardEventHandler] has no handler. *)
Theorem add_group_handler_lookup
    (self : KeyboardEventHandler.t Handler Kwargs) (group : list Z)
    (handler : Handler) (kwargs_dict : Kwargs) (key : Z) :
  KeyboardEventHandler.has_handler
    (KeyboardEventHandler.add_group_handler self group handler kwargs_dict) key
  = existsb (Z.eqb key) group || KeyboardEventHandler.has_handler self key /\
  (In key group ->
   KeyboardEventHandler.get_handler
     (KeyboardEventHandler.add_group_handler self group handler kwargs_dict) key
   = Found (KeyboardEventHandler.mk_closure Handler Kwargs
              handler key kwargs_dict)) /\
  (~ In key group ->
   KeyboardEventHandler.get_handler
     (KeyboardEventHandler.add_group_handler self group handler kwargs_dict) key
   = KeyboardEventHandler.get_handler self key) /\
  KeyboardEventHandler.has_handler
    (@KeyboardEventHandler.init Handler Kwargs) key = false.
Proof.
  unfold KeyboardEventHandler.has_handler, KeyboardEventHandler.get_handler.
  rewrite !KeyMapFacts.mem_find_b, find_add_group_handler.
  split; [| split; [| split]].
  - destruct (existsb (Z.eqb key) group); reflexivity.
  - intros Hin. apply existsb_eqb_In in Hin. rewrite Hin. reflexivity.
  - intros Hin. destruct (existsb (Z.eqb key) group) eqn:E; [| reflexivity].
    apply existsb_eqb_In in E. contradiction.
  - cbn [KeyboardEventHandler.init KeyboardEventHandler.key_event_map].
    now rewrite KeyMapFacts.empty_o.
Qed.

(** X27.  [get_handler(key)] raises [KeyError(key)] exactly when
    [has_handler(key)] is false; when it is true the closure returned
    carries that key. *)
Theorem get_handler_KeyError_iff
    (self : KeyboardEventHandler.t Handler Kwargs) (key : Z) :
  (KeyboardEventHandler.get_handler self key = KeyError key <->
   KeyboardEventHandler.has_handler self key = false) /\
  (KeyboardEventHandler.has_handler self key = true <->
   exists c : KeyboardEventHandler.closure Handler Kwargs,
     KeyboardEventHandler.get_handler self key = Found c /\
     KeyboardEventHandler.captured_key c = key).
Proof.
  unfold KeyboardEventHandler.has_handler, KeyboardEventHandler.get_handler.
  rewrite KeyMapFacts.mem_find_b.
  destruct (KeyMap.find key (KeyboardEventHandler.key_event_map self))
    as [[h kw] |].
  - split; [split; discriminate |].
    split; [intros _ | reflexivity].
    eexists. split; reflexivity.
  - split; [tauto |].
    split; [discriminate |]. intros (c & H & _). discriminate H.
Qed.

End HandlerFacts.

(** * main *)

(** X28.  With the handler table [main] builds, a [KEYDOWN] event never
    ends in a [KeyError], and its effect on the view is that of
    [adjust_view_point] for the key of the event: a move of the viewpoint
    for the six control keys, nothing for any other key. *)
Theorem keydown_main (pygame : pygame_keys) (key : Z) (view : View.t) :
  keydown (main_keyboard_event_handler pygame) key view
  = Found (adjust_view_point pygame key view).
Proof.
  unfold keydown, main_keyboard_event_handler.
  unfold KeyboardEventHandler.has_handler, KeyboardEventHandler.get_handler.
  rewrite KeyMapFacts.mem_find_b, find_add_group_handler.
  destruct (existsb (Z.eqb key) (view_control_keys pygame)) eqn:E.
  - reflexivity.
  - cbn [KeyboardEventHandler.init KeyboardEventHandler.key_event_map].
    rewrite KeyMapFacts.empty_o. now rewrite (not_control_key _ _ E).
Qed.

(** X18.  The [View] of [main] is built without an exception.  Its basis
    [(q, r)] of the plane [2x + 2y + z = 0] is orthogonal to the normal
    and in itself up to the rounding of [q]: exactly, [normal . q] is
    [-2^-51], [normal . r] is [0] and [q . r] is [0]. *)
Theorem main_view_basis :
  exists q r,
    main_view = Ok (View.mk (fl3 (0, 0, 0)%float) main_plane (q, r)) /\
    match values (Plane.normal main_plane), values q, values r with
    | Some n, Some x, Some y =>
        (Qdot n x == - (1 # 2 ^ 51) /\ Qdot n y == 0 /\ Qdot x y == 0)%Q
    | _, _, _ => False
    end.
Proof.
  do 2 eexists. split; [vm_compute; reflexivity|].
  vm_compute. repeat split.
Qed.

